(** * A shallow embedding of [model.py]

    The regression pipeline of [model.py]: the pipeline builder and its
    registry, the categorical encoder, the two per-region average steps,
    the discretizer and the bagging wrapper.

    Numbers are exact rationals ([Qc]); a pandas cell is a string, a
    number or the missing marker NaN; a [DataFrame] is its list of named
    columns.  A Python call that can raise returns a [result]. *)

From Stdlib Require Import QArith Qcanon.
From stdpp Require Import gmap strings list fin_maps.

Set Warnings "-register-all".


(** ** Python values

    What a configuration can hold: the values of the [params] mappings
    and of the entries themselves.  A [dict] keeps its items in insertion
    order. *)
Inductive pyval :=
  | PNone
  | PBool (b : bool)
  | PInt (z : Z)
  | PStr (s : string)
  | PDict (d : list (string * pyval)).

(** Truth value of an object, as [if] and [not] take it. *)
Definition truthy (v : pyval) : bool :=
  match v with
  | PNone => false
  | PBool b => b
  | PInt z => negb (z =? 0)%Z
  | PStr s => negb (String.eqb s "")
  | PDict d => match d with [] => false | _ => true end
  end.

(** ** Exceptions and the error monad *)

(** The first five are the exceptions Python, pandas, numpy and
    scikit-learn raise on the paths of [model.py].  The last three are the names of the
    specification's error taxonomy; no path of [model.py] builds them. *)
Inductive error :=
  | AttributeError (attr : string)
  | KeyError (key : pyval)
  | TypeError
  | ValueError
  | OverflowError
  | NotFittedError
  | UnknownStepError
  | UnknownCategoryError.

Definition result (A : Type) : Type := error + A.

Definition raise {A} (e : error) : result A := inl e.

#[global] Instance result_ret : MRet result := λ A x, inr x.
#[global] Instance result_bind : MBind result :=
  λ A B f m, match m with inl e => inl e | inr x => f x end.
#[global] Instance result_fmap : FMap result :=
  λ A B f m, match m with inl e => inl e | inr x => inr (f x) end.

(** [for x in l: f x], stopping at the first exception. *)
Fixpoint traverse {A B} (f : A → result B) (l : list A) : result (list B) :=
  match l with
  | [] => mret []
  | x :: l' => y ← f x; ys ← traverse f l'; mret (y :: ys)
  end.

Definition is_ok {A} (r : result A) : Prop := ∃ x, r = inr x.

(** ** Cells, series and data frames *)

Inductive cell :=
  | Str (s : string)
  | Num (q : Qc)
  | NaN.

#[global] Instance cell_eq_dec : EqDecision cell.
Proof. solve_decision. Defined.

#[global] Instance cell_countable : Countable cell.
Proof.
  refine (inj_countable'
    (λ c, match c with Str s => inl s | Num q => inr (Some q) | NaN => inr None end)
    (λ x, match x with inl s => Str s | inr (Some q) => Num q | inr None => NaN end) _).
  by intros [].
Defined.

(** Python's [==] on cells: NaN is equal to nothing, itself included. *)
Definition cell_eqb (a b : cell) : bool :=
  match a with
  | NaN => false
  | _ => bool_decide (a = b)
  end.

Definition is_num (c : cell) : option Qc :=
  match c with Num q => Some q | _ => None end.

(** A [DataFrame]: named columns, in order. *)
Definition frame : Type := list (string * list cell).

Definition columns (X : frame) : list string := X.*1.

(** [X[name]]: the column called [name]. *)
Fixpoint column (name : string) (X : frame) : option (list cell) :=
  match X with
  | [] => None
  | (n, c) :: X' => if decide (n = name) then Some c else column name X'
  end.

(** [X[name]] as pandas does it: [KeyError] when no column has the name. *)
Definition getitem (X : frame) (name : string) : result (list cell) :=
  match column name X with
  | Some c => mret c
  | None => raise (KeyError (PStr name))
  end.

(** [X[name] = c]: overwrite the column called [name] where it stands,
    append it when there is none. *)
Fixpoint setitem (X : frame) (name : string) (c : list cell) : frame :=
  match X with
  | [] => [(name, c)]
  | (n, c0) :: X' =>
      if decide (n = name) then (n, c) :: X' else (n, c0) :: setitem X' name c
  end.

(** [X.shape[1]] *)
Definition n_columns (X : frame) : nat := length X.

(** ** Means *)

Definition Qc_of_nat (n : nat) : Qc := Q2Qc (inject_Z (Z.of_nat n)).

Definition sum_Qc (ys : list Qc) : Qc := foldr Qcplus (Q2Qc 0) ys.

(** [y.mean()]: NaN for the empty vector.  The mean is the exact
    quotient; the rounding of binary floating point is not modelled. *)
Definition mean (ys : list Qc) : cell :=
  match ys with
  | [] => NaN
  | _ => Num (sum_Qc ys / Qc_of_nat (length ys))%Qc
  end.

(** [pd.DataFrame({"region": X["region"], "y": y})]: the two columns side
    by side, row by row.  The targets are an array, given in the order of
    the rows of [X]; columns of different lengths are then refused.  (A
    series on another index than that of [X] would be aligned on the
    index instead; the model has no index.) *)
Definition region_y_frame (region : list cell) (y : list Qc)
  : result (list (cell * Qc)) :=
  if decide (length region = length y) then mret (zip region y)
  else raise ValueError.

(** [df.groupby("region")]: the [y] values of each group, in row order.
    Rows whose key is missing are left out, as [groupby] does. *)
Definition groupby (rows : list (cell * Qc)) : gmap cell (list Qc) :=
  foldr (λ r g,
           match r.1 with
           | NaN => g
           | k => <[k := r.2 :: default [] (g !! k)]> g
           end) ∅ rows.

(** [df.groupby("region").mean().to_dict()["y"]] *)
Definition groupby_mean (rows : list (cell * Qc)) : gmap cell cell :=
  mean <$> groupby rows.

(** The training rows whose region equals [k] (Python's [==]). *)
Definition y_of_region (k : cell) (rows : list (cell * Qc)) : list Qc :=
  (filter (λ r, cell_eqb r.1 k = true) rows).*2.

(** [seen x region]: some training row has region [x]. *)
Definition seen (x : cell) (region : list cell) : bool :=
  existsb (λ c, cell_eqb c x) region.

(** ** AverageChargesPerRegionRegressor *)

Module AverageChargesPerRegionRegressor.

(** The instance attributes; [None] is an attribute that was never
    assigned. *)
Record t := mk {
  means_ : option (gmap cell cell);
  global_mean_ : option cell;
}.

(** The class has no [__init__]: a new instance has no attributes. *)
Definition new : t := {| means_ := None; global_mean_ := None |}.

Definition fit (self : t) (X : frame) (y : list Qc) : result t :=
  region ← getitem X "region";
  df ← region_y_frame region y;
  mret {| means_ := Some (groupby_mean df); global_mean_ := Some (mean y) |}.

Definition get_average (self : t) (x : cell) : result cell :=
  match means_ self with
  | None => raise (AttributeError "means_")
  | Some means =>
      match means !! x with
      | Some m => mret m
      | None =>
          match global_mean_ self with
          | None => raise (AttributeError "global_mean_")
          | Some g => mret g
          end
      end
  end.

Definition predict (self : t) (X : frame) : result (list cell) :=
  region ← getitem X "region";
  traverse (get_average self) region.

End AverageChargesPerRegionRegressor.

(** ** The heap of data frames

    A Python variable holds a reference; [X.copy()] allocates. *)
Abbreviation loc := nat (only parsing).
Abbreviation heap := (gmap nat frame) (only parsing).

Definition alloc (h : heap) (X : frame) : heap * loc :=
  let l := fresh (dom h) in (<[l := X]> h, l).

(** ** AverageChargesPerRegionExtractor *)

Module AverageChargesPerRegionExtractor.

Record t := mk {
  means_ : option (gmap cell cell);
  global_mean_ : option cell;
}.

Definition new : t := {| means_ := None; global_mean_ := None |}.

Definition fit (self : t) (X : frame) (y : list Qc) : result t :=
  region ← getitem X "region";
  df ← region_y_frame region y;
  mret {| means_ := Some (groupby_mean df); global_mean_ := Some (mean y) |}.

Definition get_average (self : t) (x : cell) : result cell :=
  match means_ self with
  | None => raise (AttributeError "means_")
  | Some means =>
      match means !! x with
      | Some m => mret m
      | None =>
          match global_mean_ self with
          | None => raise (AttributeError "global_mean_")
          | Some g => mret g
          end
      end
  end.

(** [transform] on frame values: the frame the method returns. *)
Definition transform_frame (self : t) (X : frame) : result frame :=
  region ← getitem X "region";
  avg ← traverse (get_average self) region;
  mret (setitem X "AverageChargeInRegion" avg).

(** [transform] on references: [X = X.copy()] rebinds the local name to
    a fresh frame, the assignment writes into that frame, and the
    reference to it is returned.  The copy stays allocated when the
    computation of the new column raises.  A reference a caller holds
    is never dangling; the first branch is there for totality. *)
Definition transform (self : t) (h : heap) (x : loc) : heap * result loc :=
  match h !! x with
  | None => (h, raise TypeError)
  | Some X =>
      let '(h1, x') := alloc h X in
      match transform_frame self X with
      | inl e => (h1, inl e)
      | inr X' => (<[x' := X']> h1, inr x')
      end
  end.

End AverageChargesPerRegionExtractor.

(** ** The [data] module

    [model.py] imports the column registry from [data]; its three
    functions take no argument and are kept as an interface. *)
Class DataModule := {
  get_binary_column_names : list string;
  get_categorical_column_names : list string;
  get_categorical_variables_values_mapping : gmap string (list cell);
}.

(** ** scikit-learn, as [model.py] uses it

    [ColumnTransformer] with a single transformer called "encoder" over a
    list of column names, and the three transformers the source puts in
    it, each as its documentation describes it.  Columns of a data frame
    are selected by name.  The result of [transform] is an array, kept as
    the list of its columns, dense or sparse alike; the codes in it are
    the floats scikit-learn writes, whole numbers all. *)

(** What [KBinsDiscretizer] leaves to numpy.  Where [fit] puts the bin
    edges: [inner_edges strategy n col] are the edges strictly inside the
    range ([bin_edges_[j][1:-1]]), which are at most [n - 1] whatever the
    strategy does.  How a string is read as a number: [as_float] for the
    cells of a column (the versions of the library that still read
    decimal strings give the number, the others refuse every string),
    [int_literal] for a bin count. *)
Class KBinsEdges := {
  inner_edges : string → nat → list Qc → list Qc;
  inner_edges_length : ∀ strategy n col,
    length (inner_edges strategy n col) ≤ n - 1;
  as_float : string → option Qc;
  int_literal : string → option Z;
}.

Module sklearn.

Inductive transformer :=
  | OneHotEncoder_drop_first (categories : list (list cell)) (sparse : bool)
  | OrdinalEncoder (categories : list (list cell))
  | KBinsDiscretizer_ordinal `{KBinsEdges} (n_bins : list pyval) (strategy : pyval).

Inductive fitted_transformer :=
  | FittedOneHot (categories_ : list (list cell))
  | FittedOrdinal (categories_ : list (list cell))
  | FittedKBins `{KBinsEdges} (inner_edges_ : list (list Qc)).

Inductive remainder := drop | passthrough.

Record ColumnTransformer := {
  encoder_ : fitted_transformer;
  encoder_columns : list string;
  remainder_columns : list string;
}.

(** The columns called [names], in that order, as [fit] looks them up
    and as [transform] checks the columns it passes through: a missing
    one is refused with [ValueError]. *)
Definition select (names : list string) (X : frame) : result (list (list cell)) :=
  traverse (λ n, match column n X with
                 | Some c => mret c
                 | None => raise ValueError
                 end) names.

(** The same columns, as [transform] hands them to the transformer: they
    are indexed by name in the frame, and pandas raises [KeyError] for a
    missing one.  The key of that error is a message that names the
    missing columns; the first missing name stands for it here. *)
Definition safe_indexing (names : list string) (X : frame)
  : result (list (list cell)) :=
  traverse (getitem X) names.

(** [check_array] on a column: one sample at least. *)
Definition check_samples {A} (col : list A) : result unit :=
  match col with
  | [] => raise ValueError
  | _ => mret ()
  end.

(** A number looked up among strings, or a string among numbers: the
    comparison of the two raises [TypeError]. *)
Definition other_type (cats : list cell) (v : cell) : bool :=
  match v with
  | Num _ => existsb (λ c, match c with Str _ => true | _ => false end) cats
  | Str _ => existsb (λ c, match c with Num _ => true | _ => false end) cats
  | NaN => false
  end.

(** The position of a value among the declared categories; a value that
    is not among them is an unknown category. *)
Definition category_index (cats : list cell) (v : cell) : result nat :=
  match list_find (λ c, c = v) cats with
  | Some (i, _) => mret i
  | None => if other_type cats v then raise TypeError else raise ValueError
  end.

Definition code (i : nat) : cell := Num (Qc_of_nat i).

Definition ordinal_column (cats : list cell) (col : list cell)
  : result (list (list cell)) :=
  _ ← check_samples col;
  idx ← traverse (category_index cats) col;
  mret [code <$> idx].

(** One indicator column per declared category but the first. *)
Definition one_hot_column (cats : list cell) (col : list cell)
  : result (list (list cell)) :=
  _ ← check_samples col;
  idx ← traverse (category_index cats) col;
  mret ((λ j, (λ i, code (if decide (i = j) then 1 else 0)) <$> idx)
          <$> seq 1 (length cats - 1)).

(** A category list per column, no more and no fewer. *)
Fixpoint encode_columns (enc : list cell → list cell → result (list (list cell)))
    (cats : list (list cell)) (cols : list (list cell))
  : result (list (list (list cell))) :=
  match cats, cols with
  | [], [] => mret []
  | c :: cats', col :: cols' =>
      b ← enc c col; bs ← encode_columns enc cats' cols'; mret (b :: bs)
  | _, _ => raise ValueError
  end.

(** A cell as the float [check_array] makes of it; a missing value is
    refused. *)
Definition as_number `{KBinsEdges} (c : cell) : result Qc :=
  match c with
  | Num q => mret q
  | Str s => match as_float s with
             | Some q => mret q
             | None => raise ValueError
             end
  | NaN => raise ValueError
  end.

Definition numeric_column `{KBinsEdges} (col : list cell) : result (list Qc) :=
  _ ← check_samples col;
  traverse as_number col.

(** A bin count as the C integer numpy makes of it. *)
Definition as_int `{KBinsEdges} (v : pyval) : result Z :=
  z ← match v with
      | PInt z => mret z
      | PBool b => mret (if b then 1 else 0)%Z
      | PStr s => match int_literal s with
                  | Some z => mret z
                  | None => raise ValueError
                  end
      | PNone | PDict _ => raise TypeError
      end;
  if decide (- 2 ^ 63 ≤ z < 2 ^ 63)%Z then mret z else raise OverflowError.

(** [bad_nbins_value]: a count below two, or one that differs from the
    value it was converted from, as the integer read from a string
    does. *)
Definition bad_nbins_value (v : pyval) (z : Z) : bool :=
  (z <? 2)%Z || match v with PStr _ => true | _ => false end.

(** [_validate_n_bins]: the counts are converted to integers, there is
    one per column, and none is bad. *)
Definition validate_n_bins `{KBinsEdges} (n_bins : list pyval) (n_features : nat)
  : result (list nat) :=
  zs ← traverse as_int n_bins;
  if decide (length zs = n_features)
  then if existsb (λ vz, bad_nbins_value vz.1 vz.2) (zip n_bins zs)
       then raise ValueError
       else mret (Z.to_nat <$> zs)
  else raise ValueError.

Definition check_strategy (v : pyval) : result string :=
  match v with
  | PStr s =>
      if decide (s ∈ ["uniform"; "quantile"; "kmeans"]%string) then mret s
      else raise ValueError
  | _ => raise ValueError
  end.

(** The bin of a value: how many inner edges are not above it. *)
Definition bin_of (edges : list Qc) (x : Qc) : nat :=
  length (filter (λ e, (e ≤ x)%Qc) edges).

Fixpoint kbins_transform_columns `{KBinsEdges} (edges : list (list Qc))
    (cols : list (list cell)) : result (list (list cell)) :=
  match edges, cols with
  | [], [] => mret []
  | e :: edges', col :: cols' =>
      xs ← numeric_column col;
      out ← kbins_transform_columns edges' cols';
      mret (((λ x, code (bin_of e x)) <$> xs) :: out)
  | _, _ => raise ValueError
  end.

(** [fit] of the transformer on the selected columns.  The discretizer
    validates the data, then its strategy, then its bin counts. *)
Definition fit_transformer (t : transformer)
    (cols : list (list cell)) : result fitted_transformer :=
  match t with
  | OneHotEncoder_drop_first cats _ =>
      _ ← encode_columns one_hot_column cats cols; mret (FittedOneHot cats)
  | OrdinalEncoder cats =>
      _ ← encode_columns ordinal_column cats cols; mret (FittedOrdinal cats)
  | KBinsDiscretizer_ordinal n_bins strategy =>
      xss ← traverse numeric_column cols;
      s ← check_strategy strategy;
      ns ← validate_n_bins n_bins (length cols);
      mret (FittedKBins (zip_with (inner_edges s) ns xss))
  end.

Definition transform_transformer (t : fitted_transformer)
    (cols : list (list cell)) : result (list (list cell)) :=
  match t with
  | FittedOneHot cats => (λ blocks, concat blocks) <$> encode_columns one_hot_column cats cols
  | FittedOrdinal cats => (λ blocks, concat blocks) <$> encode_columns ordinal_column cats cols
  | FittedKBins es => kbins_transform_columns es cols
  end.

(** [ColumnTransformer(transformers=[("encoder", t, cols)],
    remainder=r).fit(X)] *)
Definition fit (t : transformer) (cols : list string)
    (r : remainder) (X : frame) : result ColumnTransformer :=
  sel ← select cols X;
  ft ← fit_transformer t sel;
  mret {| encoder_ := ft;
          encoder_columns := cols;
          remainder_columns :=
            match r with
            | drop => []
            | passthrough => filter (λ n, n ∉ cols) (columns X)
            end |}.

(** [transform] first checks that the columns it passes through are
    there, then hands the transformer its columns; the result is the
    encoded columns, then the columns passed through. *)
Definition transform (ct : ColumnTransformer) (X : frame)
  : result (list (list cell)) :=
  rest ← select (remainder_columns ct) X;
  sel ← safe_indexing (encoder_columns ct) X;
  enc ← transform_transformer (encoder_ ct) sel;
  mret (enc ++ rest).

End sklearn.

(** ** CategoricalEncoder *)

Module CategoricalEncoder.

Record t := mk {
  one_hot : pyval;
  force_dense_array : pyval;
  categorical_column_names : list string;
  categories : list (list cell);
  n_features_in_ : option nat;
  _column_transformer : option sklearn.ColumnTransformer;
}.

Definition __init__ `{DataModule} (one_hot force_dense_array : pyval) : result t :=
  let names := get_binary_column_names ++ get_categorical_column_names in
  let mapping := get_categorical_variables_values_mapping in
  cats ← traverse (λ k, match mapping !! k with
                        | Some v => mret v
                        | None => raise (KeyError (PStr k))
                        end) names;
  mret {| one_hot := one_hot;
          force_dense_array := force_dense_array;
          categorical_column_names := names;
          categories := cats;
          n_features_in_ := None;
          _column_transformer := None |}.

Definition encoder_cls (self : t) : list (list cell) → sklearn.transformer :=
  if truthy (one_hot self)
  then λ cats, sklearn.OneHotEncoder_drop_first cats
                 (negb (truthy (force_dense_array self)))
  else sklearn.OrdinalEncoder.

Definition fit (self : t) (X : frame) (y : option (list Qc)) : result t :=
  let n := n_columns X in
  ct ← sklearn.fit (encoder_cls self (categories self))
         (categorical_column_names self) sklearn.drop X;
  mret {| one_hot := one_hot self;
          force_dense_array := force_dense_array self;
          categorical_column_names := categorical_column_names self;
          categories := categories self;
          n_features_in_ := Some n;
          _column_transformer := Some ct |}.

Definition transform (self : t) (X : frame) : result (list (list cell)) :=
  match _column_transformer self with
  | None => raise (AttributeError "_column_transformer")
  | Some ct => sklearn.transform ct X
  end.

End CategoricalEncoder.

(** ** Discretizer *)

Module Discretizer.

Record t := mk {
  bins_per_column : pyval;
  strategy : pyval;
  n_features_in_ : option nat;
  original_column_order_ : option (list string);
  columns_ : option (list string);
  new_column_order_ : option (list string);
  _column_transformer : option sklearn.ColumnTransformer;
}.

Definition __init__ (bins_per_column strategy : pyval) : t :=
  {| bins_per_column := bins_per_column;
     strategy := strategy;
     n_features_in_ := None;
     original_column_order_ := None;
     columns_ := None;
     new_column_order_ := None;
     _column_transformer := None |}.

(** [self.bins_per_column.items()] *)
Definition items (v : pyval) : result (list (string * pyval)) :=
  match v with
  | PDict d => mret d
  | _ => raise (AttributeError "items")
  end.

(** [a, b = zip] applied to the unpacked pairs: [zip] of no argument
    yields nothing, and two
    names cannot be bound to nothing; of one pair or more it yields the
    first components and the second components. *)
Definition unzip_pairs {A B} (pairs : list (A * B)) : result (list A * list B) :=
  match pairs with
  | [] => raise ValueError
  | _ => mret (pairs.*1, pairs.*2)
  end.

Definition fit `{KBinsEdges} (self : t) (X : frame) (y : list Qc) : result t :=
  let n := n_columns X in
  let original := columns X in
  its ← items (bins_per_column self);
  '(cols, n_bins) ← unzip_pairs its;
  let new_order := cols ++ filter (λ name, name ∉ its.*1) original in
  ct ← sklearn.fit (sklearn.KBinsDiscretizer_ordinal n_bins (strategy self))
         cols sklearn.passthrough X;
  mret {| bins_per_column := bins_per_column self;
          strategy := strategy self;
          n_features_in_ := Some n;
          original_column_order_ := Some original;
          columns_ := Some cols;
          new_column_order_ := Some new_order;
          _column_transformer := Some ct |}.

(** [pd.DataFrame(array, columns=names)]: as many names as columns. *)
Definition DataFrame (array : list (list cell)) (names : list string) : result frame :=
  if decide (length array = length names) then mret (zip names array)
  else raise ValueError.

Definition transform (self : t) (X : frame) : result frame :=
  match _column_transformer self with
  | None => raise (AttributeError "_column_transformer")
  | Some ct =>
      cosa ← sklearn.transform ct X;
      match new_column_order_ self with
      | None => raise (AttributeError "new_column_order_")
      | Some names => DataFrame cosa names
      end
  end.

End Discretizer.

(** ** BaggRegressor

    [BaggingRegressor] draws its bootstrap samples from a random
    generator: the process-wide one when [random_state] is [None], a
    generator of its own, started from the seed, when it is an integer.
    The library stays an interface; its one law is that a seeded fit
    neither reads nor advances the process-wide generator. *)
Class Bagging := {
  rng : Type;
  ensemble : Type;
  prediction : Type;
  BaggingRegressor_fit :
    option Z → rng → frame → list Qc → result ensemble * rng;
  BaggingRegressor_predict : ensemble → frame → result prediction;
  seeded_fit : ∀ seed g g' X y,
    (BaggingRegressor_fit (Some seed) g X y).1
    = (BaggingRegressor_fit (Some seed) g' X y).1
    ∧ (BaggingRegressor_fit (Some seed) g X y).2 = g;
}.

Module BaggRegressor.

Record t `{Bagging} := mk {
  _model : option ensemble;
}.

Definition new `{Bagging} : t := {| _model := None |}.

(** [g] is the state of the process-wide generator when [fit] is called;
    the state it leaves is returned with the fitted object. *)
Definition fit `{Bagging} (self : t) (g : rng) (X : frame) (y : list Qc)
  : result t * rng :=
  let '(r, g') := BaggingRegressor_fit (Some 0%Z) g X y in
  (m ← r; mret {| _model := Some m |}, g').

Definition predict `{Bagging} (self : t) (X : frame) : result prediction :=
  match _model self with
  | None => raise (AttributeError "_model")
  | Some m => BaggingRegressor_predict m X
  end.

End BaggRegressor.

(** ** The estimator registry and the pipeline builder *)

(** The four registry entries that are scikit-learn's own classes.  What
    keyword arguments each constructor takes is the library's business. *)
Inductive sklearn_class :=
  | LinearRegression
  | LogisticRegression
  | OneHotEncoder
  | StandardScaler.

Class SklearnSignatures := {
  accepts : sklearn_class → gmap string pyval → bool;
}.

Inductive estimator_class :=
  | ClsAverageChargesPerRegionExtractor
  | ClsAverageChargesPerRegionRegressor
  | ClsSklearn (c : sklearn_class)
  | ClsCategoricalEncoder
  | ClsBaggRegressor
  | ClsDiscretizer.

Inductive estimator `{Bagging} :=
  | IAverageChargesPerRegionExtractor (o : AverageChargesPerRegionExtractor.t)
  | IAverageChargesPerRegionRegressor (o : AverageChargesPerRegionRegressor.t)
  | ISklearn (c : sklearn_class) (kwargs : gmap string pyval)
  | ICategoricalEncoder (o : CategoricalEncoder.t)
  | IBaggRegressor (o : BaggRegressor.t)
  | IDiscretizer (o : Discretizer.t).

(** [type(estimator)] *)
Definition class_of `{Bagging} (e : estimator) : estimator_class :=
  match e with
  | IAverageChargesPerRegionExtractor _ => ClsAverageChargesPerRegionExtractor
  | IAverageChargesPerRegionRegressor _ => ClsAverageChargesPerRegionRegressor
  | ISklearn c _ => ClsSklearn c
  | ICategoricalEncoder _ => ClsCategoricalEncoder
  | IBaggRegressor _ => ClsBaggRegressor
  | IDiscretizer _ => ClsDiscretizer
  end.

Definition get_estimator_mapping : gmap string estimator_class :=
  list_to_map
    [("average-charges-extractor"%string, ClsAverageChargesPerRegionExtractor);
     ("average-charges-regressor"%string, ClsAverageChargesPerRegionRegressor);
     ("linear-regressor"%string, ClsSklearn LinearRegression);
     ("logistic-regressor"%string, ClsSklearn LogisticRegression);
     ("categorical-encoder"%string, ClsCategoricalEncoder);
     ("one-hot-encoder"%string, ClsSklearn OneHotEncoder);
     ("standard-scaler"%string, ClsSklearn StandardScaler);
     ("bagging"%string, ClsBaggRegressor);
     ("discretizer"%string, ClsDiscretizer)].

(** Calling a class with unpacked keywords: they are bound to the constructor's
    parameters, [TypeError] when they do not fit, then [__init__] runs.
    The two average steps and the bagging wrapper define no [__init__] and
    take no argument; [CategoricalEncoder] has two optional keywords,
    [Discretizer] two required ones. *)
Definition call `{DataModule} `{SklearnSignatures} `{Bagging}
    (cls : estimator_class) (kwargs : gmap string pyval) : result estimator :=
  match cls with
  | ClsAverageChargesPerRegionExtractor =>
      if decide (dom kwargs = ∅)
      then mret (IAverageChargesPerRegionExtractor AverageChargesPerRegionExtractor.new)
      else raise TypeError
  | ClsAverageChargesPerRegionRegressor =>
      if decide (dom kwargs = ∅)
      then mret (IAverageChargesPerRegionRegressor AverageChargesPerRegionRegressor.new)
      else raise TypeError
  | ClsSklearn c =>
      if accepts c kwargs then mret (ISklearn c kwargs) else raise TypeError
  | ClsCategoricalEncoder =>
      if decide (dom kwargs ⊆ {[ "one_hot"%string; "force_dense_array"%string ]})
      then
        o ← CategoricalEncoder.__init__
               (default (PBool false) (kwargs !! "one_hot"%string))
               (default (PBool false) (kwargs !! "force_dense_array"%string));
        mret (ICategoricalEncoder o)
      else raise TypeError
  | ClsBaggRegressor =>
      if decide (dom kwargs = ∅)
      then mret (IBaggRegressor BaggRegressor.new)
      else raise TypeError
  | ClsDiscretizer =>
      match kwargs !! "bins_per_column"%string, kwargs !! "strategy"%string with
      | Some b, Some s =>
          if decide (size kwargs = 2)
          then mret (IDiscretizer (Discretizer.__init__ b s))
          else raise TypeError
      | _, _ => raise TypeError
      end
  end.

(** [d[key]] on a dictionary with string keys. *)
Definition dict_getitem {A} (d : gmap string A) (key : pyval) : result A :=
  match key with
  | PStr s =>
      match d !! s with
      | Some v => mret v
      | None => raise (KeyError key)
      end
  | PDict _ => raise TypeError
  | _ => raise (KeyError key)
  end.

(** The mapping a double star unpacks. *)
Definition unpack_kwargs (params : pyval) : result (gmap string pyval) :=
  match params with
  | PDict d => mret (list_to_map d)
  | _ => raise TypeError
  end.

(** scikit-learn's [Pipeline], as the builder leaves it: the list of steps
    it was constructed from.  What the library checks of the steps, and
    when, is not part of [model.py]. *)
Record Pipeline `{Bagging} := {
  steps : list (pyval * estimator);
}.

(** One turn of the loop of [build_estimator]. *)
Definition build_step `{DataModule} `{SklearnSignatures} `{Bagging}
    (step : gmap string pyval) : result (pyval * estimator) :=
  name ← dict_getitem step (PStr "name");
  params ← dict_getitem step (PStr "params");
  cls ← dict_getitem get_estimator_mapping name;
  kwargs ← unpack_kwargs params;
  estimator ← call cls kwargs;
  mret (name, estimator).

Definition build_estimator `{DataModule} `{SklearnSignatures} `{Bagging}
    (config : list (gmap string pyval)) : result Pipeline :=
  steps ← traverse build_step config;
  mret {| steps := steps |}.

(** ** Vocabulary of the properties *)

(** What [get_average] returns for region [x] once fitted on [region]
    and [y]: the mean of the rows of that region when there is one, the
    mean of all of [y] otherwise. *)
Definition region_average (region : list cell) (y : list Qc) (x : cell) : cell :=
  if seen x region then mean (y_of_region x (zip region y)) else mean y.

Definition charges : list Qc := [Q2Qc 10; Q2Qc 20; Q2Qc 50].

Definition regions : list cell := [Str "A"; Str "A"; Str "B"].

(** The data of the examples: a regressor and an extractor fitted on
    [regions] and [charges]. *)
Definition training : frame := [("region"%string, regions)].

Definition fitted_regressor : AverageChargesPerRegionRegressor.t :=
  {| AverageChargesPerRegionRegressor.means_ :=
       Some (groupby_mean (zip regions charges));
     AverageChargesPerRegionRegressor.global_mean_ := Some (mean charges) |}.

Definition fitted_extractor : AverageChargesPerRegionExtractor.t :=
  {| AverageChargesPerRegionExtractor.means_ :=
       Some (groupby_mean (zip regions charges));
     AverageChargesPerRegionExtractor.global_mean_ := Some (mean charges) |}.

(** The name of the column the extractor writes. *)
Definition new_column : string := "AverageChargeInRegion".

(** A frame that already has a column of that name. *)
Definition already_widened : frame :=
  [("region"%string, [Str "A"]); (new_column, [Num (Q2Qc 0)])].

(** An encoder that was constructed and never fitted. *)
Definition unfitted_encoder : CategoricalEncoder.t :=
  {| CategoricalEncoder.one_hot := PBool false;
     CategoricalEncoder.force_dense_array := PBool false;
     CategoricalEncoder.categorical_column_names := ["sex"%string];
     CategoricalEncoder.categories := [[Str "female"; Str "male"]];
     CategoricalEncoder.n_features_in_ := None;
     CategoricalEncoder._column_transformer := None |}.

(** ** Instances of the library interfaces, for the examples *)

Definition Qc_min (a b : Qc) : Qc := if decide (a ≤ b)%Qc then a else b.
Definition Qc_max (a b : Qc) : Qc := if decide (a ≤ b)%Qc then b else a.

(** Edges of [n] bins of equal width between the least and the greatest
    value; a constant column gets a single bin. *)
Definition equal_width (n : nat) (xs : list Qc) : list Qc :=
  match xs with
  | [] => []
  | x0 :: _ =>
      let lo := foldr Qc_min x0 xs in
      let hi := foldr Qc_max x0 xs in
      if decide (lo = hi) then []
      else (λ i, lo + (hi - lo) * Qc_of_nat i / Qc_of_nat n)%Qc <$> seq 1 (n - 1)
  end.

(** Equal-width bins, whatever the strategy is called, in a library
    that reads no string as a number. *)
Program Definition equal_width_edges : KBinsEdges :=
  {| inner_edges := λ _ n xs, equal_width n xs;
     as_float := λ _, None;
     int_literal := λ _, None |}.
Next Obligation.
  intros s n xs. unfold equal_width. destruct xs as [|x0 xs]; cbn; [lia|].
  case_decide; cbn; [lia|]. by rewrite length_fmap, length_seq.
Qed.

(** A bagging library small enough to run: the ensemble remembers which
    generator state its samples were drawn from and predicts the mean of
    the targets for every row.  An unseeded fit draws from the
    process-wide generator and advances it. *)
Program Definition counter_bagging : Bagging :=
  {| rng := Z;
     ensemble := Z * cell;
     prediction := list cell;
     BaggingRegressor_fit := λ random_state g X y,
       match random_state with
       | Some seed => (inr (seed, mean y), g)
       | None => (inr (g, mean y), (g + 1)%Z)
       end;
     BaggingRegressor_predict := λ m X,
       match X with
       | [] => inl ValueError
       | (_, c) :: _ => inr (replicate (length c) m.2)
       end |}.
Next Obligation. done. Qed.

(** The column registry of the insurance data set. *)
Definition insurance_data : DataModule :=
  {| get_binary_column_names := ["sex"%string; "smoker"%string];
     get_categorical_column_names := ["region"%string];
     get_categorical_variables_values_mapping :=
       list_to_map
         [("sex"%string, [Str "female"; Str "male"]);
          ("smoker"%string, [Str "no"; Str "yes"]);
          ("region"%string,
           [Str "northeast"; Str "northwest"; Str "southeast"; Str "southwest"])] |}.

(** Every scikit-learn constructor can be called without argument; this
    instance accepts nothing else. *)
Definition no_keywords : SklearnSignatures :=
  {| accepts := λ _ kwargs, bool_decide (dom kwargs = ∅) |}.

(** A configuration entry, as the dictionary it is. *)
Definition entry (name : string) (params : list (string * pyval)) : gmap string pyval :=
  {[ "name"%string := PStr name; "params"%string := PDict params ]}.

(** ** Vocabulary of the pipeline builder's properties *)

(** The entry [step] names a class of the registry whose constructor
    accepts the entry's parameters, and [st] is the pair of that name and
    of the instance the constructor returns. *)
Definition built_from `{DataModule} `{SklearnSignatures} `{Bagging}
    (step : gmap string pyval) (st : pyval * estimator) : Prop :=
  ∃ s d cls,
    step !! "name"%string = Some (PStr s)
    ∧ step !! "params"%string = Some (PDict d)
    ∧ get_estimator_mapping !! s = Some cls
    ∧ st.1 = PStr s
    ∧ class_of st.2 = cls
    ∧ call cls (list_to_map d) = inr st.2.

Definition valid_entry `{DataModule} `{SklearnSignatures} `{Bagging}
    (step : gmap string pyval) : Prop :=
  ∃ st, built_from step st.

(** ** Vocabulary of the encoder's properties *)




(** The encoder of the insurance data, in ordinal mode, and frames for
    it: one to fit on, one with a value outside the declared domain of
    [sex]. *)
Definition insurance_encoder : CategoricalEncoder.t :=
  {| CategoricalEncoder.one_hot := PBool false;
     CategoricalEncoder.force_dense_array := PBool false;
     CategoricalEncoder.categorical_column_names :=
       ["sex"%string; "smoker"%string; "region"%string];
     CategoricalEncoder.categories :=
       [[Str "female"; Str "male"];
        [Str "no"; Str "yes"];
        [Str "northeast"; Str "northwest"; Str "southeast"; Str "southwest"]];
     CategoricalEncoder.n_features_in_ := None;
     CategoricalEncoder._column_transformer := None |}.

Definition fitted_insurance_encoder : CategoricalEncoder.t :=
  {| CategoricalEncoder.one_hot := PBool false;
     CategoricalEncoder.force_dense_array := PBool false;
     CategoricalEncoder.categorical_column_names :=
       CategoricalEncoder.categorical_column_names insurance_encoder;
     CategoricalEncoder.categories := CategoricalEncoder.categories insurance_encoder;
     CategoricalEncoder.n_features_in_ := Some 4;
     CategoricalEncoder._column_transformer :=
       Some {| sklearn.encoder_ :=
                 sklearn.FittedOrdinal (CategoricalEncoder.categories insurance_encoder);
               sklearn.encoder_columns :=
                 CategoricalEncoder.categorical_column_names insurance_encoder;
               sklearn.remainder_columns := [] |} |}.

Definition one_hot_insurance_encoder : CategoricalEncoder.t :=
  {| CategoricalEncoder.one_hot := PBool true;
     CategoricalEncoder.force_dense_array := PBool false;
     CategoricalEncoder.categorical_column_names :=
       CategoricalEncoder.categorical_column_names insurance_encoder;
     CategoricalEncoder.categories := CategoricalEncoder.categories insurance_encoder;
     CategoricalEncoder.n_features_in_ := None;
     CategoricalEncoder._column_transformer := None |}.

Definition insurance_rows : frame :=
  [("age"%string, [Num (Q2Qc 19); Num (Q2Qc 33)]);
   ("sex"%string, [Str "female"; Str "male"]);
   ("smoker"%string, [Str "yes"; Str "no"]);
   ("region"%string, [Str "southwest"; Str "northeast"])].



(** The insurance data without the column [smoker], and with a value
    outside the declared domain of [sex]. *)
Definition no_smoker_rows : frame :=
  [("age"%string, [Num (Q2Qc 40)]);
   ("sex"%string, [Str "other"]);
   ("region"%string, [Str "northeast"])].

(** A number where the sexes are declared as strings. *)
Definition number_for_sex_rows : frame :=
  [("age"%string, [Num (Q2Qc 40)]);
   ("sex"%string, [Num (Q2Qc 1)]);
   ("smoker"%string, [Str "no"]);
   ("region"%string, [Str "northeast"])].

(** ** Vocabulary of the discretizer's properties *)

(** The codes of one binned column: integers from 0, below the bin count
    [v] configured for the column, one per row. *)
Definition ordinal_codes (v : pyval) (rows : nat) (codes : list cell) : Prop :=
  ∃ b, v = PInt b
       ∧ length codes = rows
       ∧ Forall (λ c, ∃ k, c = sklearn.code k ∧ (Z.of_nat k < b)%Z) codes.

Definition numeric (col : list cell) : Prop :=
  Forall (λ c, is_Some (is_num c)) col.

(** A discretizer with three bins for [age], the frame it is fitted on,
    and a frame that has the configured column and lacks the other. *)
Definition age_bins : list (string * pyval) := [("age"%string, PInt 3)].

Definition age_discretizer : Discretizer.t :=
  Discretizer.__init__ (PDict age_bins) (PStr "uniform").

Definition ages : list Qc := [Q2Qc 19; Q2Qc 33; Q2Qc 61].

Definition age_bmi : frame :=
  [("age"%string, Num <$> ages);
   ("bmi"%string, [Num (Q2Qc (279 # 10)); Num (Q2Qc (227 # 10)); Num (Q2Qc 30)])].

Definition age_only : frame := [("age"%string, Num <$> ages)].

Definition fitted_age_discretizer : Discretizer.t :=
  {| Discretizer.bins_per_column := PDict age_bins;
     Discretizer.strategy := PStr "uniform";
     Discretizer.n_features_in_ := Some 2;
     Discretizer.original_column_order_ := Some ["age"%string; "bmi"%string];
     Discretizer.columns_ := Some ["age"%string];
     Discretizer.new_column_order_ := Some ["age"%string; "bmi"%string];
     Discretizer._column_transformer :=
       Some {| sklearn.encoder_ := sklearn.FittedKBins (H := equal_width_edges)
                                      [equal_width 3 ages];
               sklearn.encoder_columns := ["age"%string];
               sklearn.remainder_columns := ["bmi"%string] |} |}.

(** ** The claims the code departs from, as they are written *)

(** The claim C8 as it is written: whatever the input, the result is the
    input with one column more. *)
Definition extractor_always_appends : Prop :=
  ∀ selfE X0 y ext X,
    AverageChargesPerRegionExtractor.fit selfE X0 y = inr ext →
    ∃ c, AverageChargesPerRegionExtractor.transform_frame ext X
         = inr (X ++ [(new_column, c)]).

(** The claim C6 as it is written, for the encoder. *)
Definition unfitted_encoder_raises_NotFittedError : Prop :=
  ∀ self X,
    CategoricalEncoder._column_transformer self = None →
    CategoricalEncoder.transform self X = inl NotFittedError.

(** The claim C7 as it is written. *)
Definition unknown_name_raises_UnknownStepError
    `{DataModule} `{SklearnSignatures} `{Bagging} : Prop :=
  ∀ config step s,
    step ∈ config →
    step !! "name"%string = Some (PStr s) →
    get_estimator_mapping !! s = None →
    build_estimator config = inl UnknownStepError.


(** The claim C3 as it is written: having the configured columns is
    enough for [transform] to return a data set. *)
Definition discretizer_accepts_configured_columns `{KBinsEdges} : Prop :=
  ∀ self X0 y d its X,
    Discretizer.bins_per_column self = PDict its →
    Discretizer.fit self X0 y = inr d →
    (∀ name, name ∈ its.*1 → name ∈ columns X) →
    is_ok (Discretizer.transform d X).


(** ** Vocabulary of the further properties *)

(** The keywords do not fit the constructor of the class. *)
Definition rejects `{SklearnSignatures} (cls : estimator_class)
    (kwargs : gmap string pyval) : Prop :=
  match cls with
  | ClsAverageChargesPerRegionExtractor
  | ClsAverageChargesPerRegionRegressor
  | ClsBaggRegressor => dom kwargs ≠ ∅
  | ClsSklearn c => accepts c kwargs = false
  | ClsCategoricalEncoder =>
      ¬ dom kwargs ⊆ {[ "one_hot"%string; "force_dense_array"%string ]}
  | ClsDiscretizer =>
      dom kwargs ≠ {[ "bins_per_column"%string; "strategy"%string ]}
  end.

(** No attribute that only [fit] assigns has been assigned. *)
Definition unfitted `{Bagging} (e : estimator) : Prop :=
  match e with
  | IAverageChargesPerRegionExtractor o =>
      AverageChargesPerRegionExtractor.means_ o = None
      ∧ AverageChargesPerRegionExtractor.global_mean_ o = None
  | IAverageChargesPerRegionRegressor o =>
      AverageChargesPerRegionRegressor.means_ o = None
      ∧ AverageChargesPerRegionRegressor.global_mean_ o = None
  | ISklearn _ _ => True
  | ICategoricalEncoder o =>
      CategoricalEncoder.n_features_in_ o = None
      ∧ CategoricalEncoder._column_transformer o = None
  | IBaggRegressor o => BaggRegressor._model o = None
  | IDiscretizer o =>
      Discretizer.n_features_in_ o = None
      ∧ Discretizer.original_column_order_ o = None
      ∧ Discretizer.columns_ o = None
      ∧ Discretizer.new_column_order_ o = None
      ∧ Discretizer._column_transformer o = None
  end.

(** * Properties *)

(** ** The error monad *)

Lemma traverse_pure {A B} (f : A → result B) (g : A → B) (l : list A) :
  (∀ x, x ∈ l → f x = inr (g x)) → traverse f l = inr (g <$> l).
Proof.
  induction l as [|x l IH]; intros Hf; [done|].
  cbn. rewrite Hf by left. cbn.
  rewrite IH; [done|]. intros z Hz. apply Hf. by right.
Qed.

(** ** Data frames *)

Lemma column_setitem X name c : column name (setitem X name c) = Some c.
Proof.
  induction X as [|[n c0] X IH]; cbn.
  - by rewrite decide_True.
  - destruct (decide (n = name)) as [->|Hne]; cbn.
    + by rewrite decide_True.
    + by rewrite decide_False.
Qed.

Lemma column_None name X : column name X = None ↔ name ∉ columns X.
Proof.
  unfold columns. induction X as [|[n c] X IH]; cbn.
  - split; [intros _; apply not_elem_of_nil|done].
  - destruct (decide (n = name)) as [->|Hne].
    + split; [done|]. intros []. left.
    + rewrite IH, not_elem_of_cons. split; [by split|by intros [_ ?]].
Qed.

Lemma setitem_fresh X name c :
  name ∉ columns X → setitem X name c = X ++ [(name, c)].
Proof.
  unfold columns. induction X as [|[n c0] X IH]; cbn; [done|].
  rewrite not_elem_of_cons. intros [Hne Hnotin].
  rewrite decide_False by done. by rewrite IH.
Qed.

(** ** Group means *)

Lemma cell_eqb_true a b : cell_eqb a b = true ↔ a = b ∧ a ≠ NaN.
Proof.
  destruct a; cbn; rewrite ?bool_decide_eq_true; split;
    try done; try (by intros [? ?]); by intros <-.
Qed.

Lemma groupby_lookup rows k :
  groupby rows !! k =
    match y_of_region k rows with [] => None | ys => Some ys end.
Proof.
  unfold y_of_region. induction rows as [|[k' y'] rows IH]; [done|].
  cbn [groupby foldr]. fold (groupby rows). cbn [fst snd].
  destruct (cell_eqb k' k) eqn:Heq.
  - apply cell_eqb_true in Heq as [-> Hnan].
    rewrite filter_cons_True by (cbn; by apply cell_eqb_true).
    cbn. assert (<[k := y' :: default [] (groupby rows !! k)]> (groupby rows) !! k
                 = Some (y' :: (filter (λ r, cell_eqb r.1 k = true) rows).*2)) as Hins.
    { rewrite lookup_insert_eq, IH.
      by destruct ((filter (λ r, cell_eqb r.1 k = true) rows).*2). }
    by destruct k.
  - rewrite filter_cons_False by (cbn; congruence).
    destruct k' as [s|q|]; [| |done].
    + rewrite lookup_insert_ne; [done|].
      intros <-. cbn in Heq. by rewrite bool_decide_eq_false in Heq.
    + rewrite lookup_insert_ne; [done|].
      intros <-. cbn in Heq. by rewrite bool_decide_eq_false in Heq.
Qed.

Lemma groupby_mean_lookup rows k :
  groupby_mean rows !! k =
    match y_of_region k rows with [] => None | ys => Some (mean ys) end.
Proof.
  unfold groupby_mean. rewrite lookup_fmap, groupby_lookup.
  by destruct (y_of_region k rows).
Qed.

Lemma y_of_region_seen region y x :
  length region = length y →
  (y_of_region x (zip region y) = [] ↔ seen x region = false).
Proof.
  unfold y_of_region, seen. revert y.
  induction region as [|c region IH]; intros [|y0 y] Hlen; try done.
  cbn [zip zip_with existsb]. destruct (cell_eqb c x) eqn:Heq.
  - rewrite filter_cons_True by done. done.
  - rewrite filter_cons_False by (cbn; congruence). cbn.
    apply IH. by injection Hlen.
Qed.

(** ** The per-region average steps *)


Lemma regressor_get_average region y x :
  length region = length y →
  AverageChargesPerRegionRegressor.get_average
    {| AverageChargesPerRegionRegressor.means_ := Some (groupby_mean (zip region y));
       AverageChargesPerRegionRegressor.global_mean_ := Some (mean y) |} x
  = inr (region_average region y x).
Proof.
  intros Hlen. unfold AverageChargesPerRegionRegressor.get_average, region_average.
  cbn. rewrite groupby_mean_lookup.
  pose proof (y_of_region_seen region y x Hlen) as Hseen.
  destruct (y_of_region x (zip region y)) as [|y0 ys].
  - by rewrite (proj1 Hseen).
  - destruct (seen x region) eqn:Hs; [done|]. discriminate (proj2 Hseen eq_refl).
Qed.

Lemma extractor_get_average region y x :
  length region = length y →
  AverageChargesPerRegionExtractor.get_average
    {| AverageChargesPerRegionExtractor.means_ := Some (groupby_mean (zip region y));
       AverageChargesPerRegionExtractor.global_mean_ := Some (mean y) |} x
  = inr (region_average region y x).
Proof.
  intros Hlen. unfold AverageChargesPerRegionExtractor.get_average, region_average.
  cbn. rewrite groupby_mean_lookup.
  pose proof (y_of_region_seen region y x Hlen) as Hseen.
  destruct (y_of_region x (zip region y)) as [|y0 ys].
  - by rewrite (proj1 Hseen).
  - destruct (seen x region) eqn:Hs; [done|]. discriminate (proj2 Hseen eq_refl).
Qed.

Lemma regressor_fit self X y region :
  column "region" X = Some region → length region = length y →
  AverageChargesPerRegionRegressor.fit self X y
  = inr {| AverageChargesPerRegionRegressor.means_ := Some (groupby_mean (zip region y));
           AverageChargesPerRegionRegressor.global_mean_ := Some (mean y) |}.
Proof.
  intros Hcol Hlen. unfold AverageChargesPerRegionRegressor.fit, getitem.
  rewrite Hcol. cbn. unfold region_y_frame. by rewrite decide_True.
Qed.

Lemma extractor_fit self X y region :
  column "region" X = Some region → length region = length y →
  AverageChargesPerRegionExtractor.fit self X y
  = inr {| AverageChargesPerRegionExtractor.means_ := Some (groupby_mean (zip region y));
           AverageChargesPerRegionExtractor.global_mean_ := Some (mean y) |}.
Proof.
  intros Hcol Hlen. unfold AverageChargesPerRegionExtractor.fit, getitem.
  rewrite Hcol. cbn. unfold region_y_frame. by rewrite decide_True.
Qed.

Lemma regressor_predict region y Xq regionq :
  length region = length y → column "region" Xq = Some regionq →
  AverageChargesPerRegionRegressor.predict
    {| AverageChargesPerRegionRegressor.means_ := Some (groupby_mean (zip region y));
       AverageChargesPerRegionRegressor.global_mean_ := Some (mean y) |} Xq
  = inr (region_average region y <$> regionq).
Proof.
  intros Hlen Hq. unfold AverageChargesPerRegionRegressor.predict, getitem.
  rewrite Hq. apply traverse_pure. intros. by apply regressor_get_average.
Qed.

Lemma extractor_transform_frame region y Xq regionq :
  length region = length y → column "region" Xq = Some regionq →
  AverageChargesPerRegionExtractor.transform_frame
    {| AverageChargesPerRegionExtractor.means_ := Some (groupby_mean (zip region y));
       AverageChargesPerRegionExtractor.global_mean_ := Some (mean y) |} Xq
  = inr (setitem Xq "AverageChargeInRegion" (region_average region y <$> regionq)).
Proof.
  intros Hlen Hq. unfold AverageChargesPerRegionExtractor.transform_frame, getitem.
  rewrite Hq. cbn.
  by rewrite (traverse_pure _ (region_average region y))
    by (intros; by apply extractor_get_average).
Qed.


Lemma example_means :
  mean [Q2Qc 10; Q2Qc 20] = Num (Q2Qc 15)
  ∧ mean [Q2Qc 50] = Num (Q2Qc 50)
  ∧ mean charges = Num (Q2Qc (80 # 3)).
Proof.
  repeat split; unfold mean; f_equal; apply Qc_is_canon; reflexivity.
Qed.

Lemma example_average_A : region_average regions charges (Str "A") = Num (Q2Qc 15).
Proof.
  unfold region_average.
  change (seen (Str "A") regions) with true.
  change (y_of_region (Str "A") (zip regions charges)) with [Q2Qc 10; Q2Qc 20].
  apply example_means.
Qed.

Lemma example_average_B : region_average regions charges (Str "B") = Num (Q2Qc 50).
Proof.
  unfold region_average.
  change (seen (Str "B") regions) with true.
  change (y_of_region (Str "B") (zip regions charges)) with [Q2Qc 50].
  apply example_means.
Qed.

Lemma example_average_unseen c :
  c ≠ Str "A" → c ≠ Str "B" →
  region_average regions charges c = Num (Q2Qc (80 # 3)).
Proof.
  intros HA HB. unfold region_average, seen, regions. cbn [existsb].
  assert (cell_eqb (Str "A") c = false) as ->
    by (cbn; apply bool_decide_eq_false; congruence).
  assert (cell_eqb (Str "B") c = false) as ->
    by (cbn; apply bool_decide_eq_false; congruence).
  apply example_means.
Qed.

(** C1. Fitted on training rows [(X, y)], the regressor predicts, for a
    query row whose region occurred in training, the mean of [y] over the
    training rows of that region, and the extractor writes that same
    value in its new column; for a region that did not occur, both give
    the mean of all of [y].  On regions [A, A, B] with charges
    [10, 20, 50] the regressor predicts 15 for A, 50 for B and 80/3 for
    any other region. *)
Theorem group_average_predicts_region_mean :
  (∀ selfR selfE X y region,
     column "region" X = Some region → length region = length y →
     ∃ reg ext,
       AverageChargesPerRegionRegressor.fit selfR X y = inr reg
       ∧ AverageChargesPerRegionExtractor.fit selfE X y = inr ext
       ∧ ∀ Xq regionq,
           column "region" Xq = Some regionq →
           ∃ pred Xt,
             AverageChargesPerRegionRegressor.predict reg Xq = inr pred
             ∧ AverageChargesPerRegionExtractor.transform_frame ext Xq = inr Xt
             ∧ column "AverageChargeInRegion" Xt = Some pred
             ∧ length pred = length regionq
             ∧ ∀ i x, regionq !! i = Some x →
                 (seen x region = true →
                  pred !! i = Some (mean (y_of_region x (zip region y))))
                 ∧ (seen x region = false → pred !! i = Some (mean y)))
  ∧ (∀ reg, AverageChargesPerRegionRegressor.fit
              AverageChargesPerRegionRegressor.new
              [("region"%string, regions)] charges = inr reg →
       AverageChargesPerRegionRegressor.predict reg
         [("region"%string, [Str "A"; Str "B"])]
       = inr [Num (Q2Qc 15); Num (Q2Qc 50)]
       ∧ ∀ c, c ≠ Str "A" → c ≠ Str "B" →
           AverageChargesPerRegionRegressor.predict reg [("region"%string, [c])]
           = inr [Num (Q2Qc (80 # 3))]).
Proof.
  split.
  - intros selfR selfE X y region Hcol Hlen.
    eexists _, _. split; [by eapply regressor_fit|].
    split; [by eapply extractor_fit|].
    intros Xq regionq Hq.
    exists (region_average region y <$> regionq),
      (setitem Xq "AverageChargeInRegion" (region_average region y <$> regionq)).
    split; [by apply regressor_predict|].
    split; [by apply extractor_transform_frame|].
    split; [apply column_setitem|].
    split; [by rewrite length_fmap|].
    intros i x Hi. rewrite list_lookup_fmap, Hi. cbn. unfold region_average.
    split; intros ->; done.
  - intros reg Hfit.
    rewrite (regressor_fit _ _ _ regions) in Hfit by done.
    injection Hfit as <-.
    split.
    + rewrite (regressor_predict regions charges _ [Str "A"; Str "B"]) by done.
      cbn [fmap list_fmap]. by rewrite example_average_A, example_average_B.
    + intros c HcA HcB.
      rewrite (regressor_predict regions charges _ [c]) by done.
      cbn [fmap list_fmap]. by rewrite example_average_unseen.
Qed.

Lemma group_average_witness :
  ∃ reg ext,
    AverageChargesPerRegionRegressor.fit
      AverageChargesPerRegionRegressor.new training charges = inr reg
    ∧ AverageChargesPerRegionExtractor.fit
        AverageChargesPerRegionExtractor.new training charges = inr ext
    ∧ ∀ Xq regionq,
        column "region" Xq = Some regionq →
        ∃ pred Xt,
          AverageChargesPerRegionRegressor.predict reg Xq = inr pred
          ∧ AverageChargesPerRegionExtractor.transform_frame ext Xq = inr Xt
          ∧ column "AverageChargeInRegion" Xt = Some pred
          ∧ length pred = length regionq
          ∧ ∀ i x, regionq !! i = Some x →
              (seen x regions = true →
               pred !! i = Some (mean (y_of_region x (zip regions charges))))
              ∧ (seen x regions = false → pred !! i = Some (mean charges)).
Proof.
  exact (proj1 group_average_predicts_region_mean
           AverageChargesPerRegionRegressor.new
           AverageChargesPerRegionExtractor.new
           training charges regions eq_refl eq_refl).
Defined.

(** ** The extractor and the frame it is given *)

Lemma alloc_fresh (h : heap) X h' l :
  alloc h X = (h', l) → h !! l = None ∧ h' = <[l := X]> h.
Proof.
  unfold alloc. intros [= <- <-]. split; [|done].
  apply not_elem_of_dom. apply is_fresh.
Qed.

Lemma extractor_overwrites_existing_column :
  AverageChargesPerRegionExtractor.fit
    AverageChargesPerRegionExtractor.new training charges = inr fitted_extractor
  ∧ AverageChargesPerRegionExtractor.transform_frame fitted_extractor already_widened
    = inr [("region"%string, [Str "A"]); (new_column, [Num (Q2Qc 15)])]
  ∧ ¬ extractor_always_appends.
Proof.
  assert (AverageChargesPerRegionExtractor.transform_frame fitted_extractor
            already_widened
          = inr [("region"%string, [Str "A"]); (new_column, [Num (Q2Qc 15)])])
    as Htr.
  { unfold fitted_extractor.
    rewrite (extractor_transform_frame regions charges _ [Str "A"]) by done.
    cbn [fmap list_fmap]. by rewrite example_average_A. }
  split; [by apply (extractor_fit _ _ _ regions)|].
  split; [done|].
  intros Hclaim.
  destruct (Hclaim AverageChargesPerRegionExtractor.new training charges
              fitted_extractor already_widened) as [c Hc].
  { by apply (extractor_fit _ _ _ regions). }
  rewrite Htr in Hc. discriminate Hc.
Qed.

(** C8, amended. For a fitted extractor and an input that has a
    [region] column and no column called [AverageChargeInRegion] yet,
    [transform] returns a new frame that holds every column of the input,
    values and order unchanged, followed by exactly one new column of
    that name; the frame it was given, and every other frame, is left as
    it was. *)
Theorem extractor_transform_widens_a_copy selfE X0 y ext (h : heap) x X regionq :
  AverageChargesPerRegionExtractor.fit selfE X0 y = inr ext →
  h !! x = Some X →
  column "region" X = Some regionq →
  new_column ∉ columns X →
  ∃ h' x' c,
    AverageChargesPerRegionExtractor.transform ext h x = (h', inr x')
    ∧ h !! x' = None
    ∧ h' !! x' = Some (X ++ [(new_column, c)])
    ∧ length c = length regionq
    ∧ h' !! x = Some X
    ∧ ∀ l, l ≠ x' → h' !! l = h !! l.
Proof.
  intros Hfit Hx Hregion Hnew.
  unfold AverageChargesPerRegionExtractor.fit in Hfit.
  destruct (getitem X0 "region") as [e|region] eqn:HX0; [done|].
  cbn in Hfit. unfold region_y_frame in Hfit.
  destruct (decide (length region = length y)) as [Hlen|]; [|done].
  injection Hfit as <-.
  unfold AverageChargesPerRegionExtractor.transform. rewrite Hx.
  destruct (alloc h X) as [h1 x'] eqn:Halloc.
  apply alloc_fresh in Halloc as [Hfresh ->].
  rewrite (extractor_transform_frame region y X regionq) by done.
  assert (x' ≠ x) as Hne by (intros ->; congruence).
  eexists _, x', (region_average region y <$> regionq).
  split; [done|]. split; [done|].
  split. { rewrite lookup_insert_eq. f_equal. by apply setitem_fresh. }
  split; [by rewrite length_fmap|].
  split. { by rewrite !lookup_insert_ne. }
  intros l Hl. by rewrite !lookup_insert_ne.
Qed.

Lemma extractor_transform_widens_a_copy_witness :
  ∃ h' x' c,
    AverageChargesPerRegionExtractor.transform fitted_extractor
      {[ 0 := [("region"%string, [Str "A"; Str "C"])] ]} 0 = (h', inr x')
    ∧ ({[ 0 := [("region"%string, [Str "A"; Str "C"])] ]} : heap) !! x' = None
    ∧ h' !! x' = Some ([("region"%string, [Str "A"; Str "C"])] ++ [(new_column, c)])
    ∧ length c = length [Str "A"; Str "C"]
    ∧ h' !! 0 = Some [("region"%string, [Str "A"; Str "C"])]
    ∧ ∀ l, l ≠ x' →
        h' !! l = ({[ 0 := [("region"%string, [Str "A"; Str "C"])] ]} : heap) !! l.
Proof.
  apply (extractor_transform_widens_a_copy
           AverageChargesPerRegionExtractor.new training charges).
  - reflexivity.
  - reflexivity.
  - reflexivity.
  - apply (bool_decide_unpack (new_column ∉ columns [("region"%string, [Str "A"; Str "C"])])).
    vm_compute. reflexivity.
Defined.

(** ** Steps used before they are fitted *)

Lemma unfitted_steps_raise_AttributeError_instead :
  CategoricalEncoder.transform unfitted_encoder [("sex"%string, [Str "male"])]
  = inl (AttributeError "_column_transformer")
  ∧ AverageChargesPerRegionRegressor.predict
      AverageChargesPerRegionRegressor.new [("region"%string, [Str "A"])]
    = inl (AttributeError "means_")
  ∧ AverageChargesPerRegionRegressor.predict
      AverageChargesPerRegionRegressor.new [("region"%string, [])]
    = inr []
  ∧ ¬ unfitted_encoder_raises_NotFittedError.
Proof.
  repeat split.
  intros Hclaim.
  specialize (Hclaim unfitted_encoder [("sex"%string, [Str "male"])] eq_refl).
  discriminate Hclaim.
Qed.

(** C6, amended. A step used before [fit] fails with the
    [AttributeError] of the attribute [fit] would have assigned, not with
    [NotFittedError]: the encoder's [transform] and the bagging wrapper's
    [predict] on every input, the regressor's [predict] and the
    extractor's [transform] on every input whose [region] column has a row
    at least. *)
Theorem unfitted_steps_raise_AttributeError `{Bagging} :
  (∀ self X,
     CategoricalEncoder._column_transformer self = None →
     CategoricalEncoder.transform self X
     = inl (AttributeError "_column_transformer"))
  ∧ (∀ X, BaggRegressor.predict BaggRegressor.new X
          = inl (AttributeError "_model"))
  ∧ (∀ X x rest,
       column "region" X = Some (x :: rest) →
       AverageChargesPerRegionRegressor.predict
         AverageChargesPerRegionRegressor.new X
       = inl (AttributeError "means_")
       ∧ AverageChargesPerRegionExtractor.transform_frame
           AverageChargesPerRegionExtractor.new X
         = inl (AttributeError "means_")).
Proof.
  split; [|split].
  - intros self X Hnone. unfold CategoricalEncoder.transform. by rewrite Hnone.
  - done.
  - intros X x rest Hcol.
    unfold AverageChargesPerRegionRegressor.predict,
      AverageChargesPerRegionExtractor.transform_frame, getitem.
    by rewrite Hcol.
Qed.

Lemma unfitted_steps_raise_AttributeError_witness :
  CategoricalEncoder.transform unfitted_encoder [("sex"%string, [Str "male"])]
  = inl (AttributeError "_column_transformer")
  ∧ AverageChargesPerRegionRegressor.predict
      AverageChargesPerRegionRegressor.new [("region"%string, [Str "A"])]
    = inl (AttributeError "means_")
  ∧ AverageChargesPerRegionExtractor.transform_frame
      AverageChargesPerRegionExtractor.new [("region"%string, [Str "A"])]
    = inl (AttributeError "means_").
Proof.
  destruct (@unfitted_steps_raise_AttributeError counter_bagging)
    as (Henc & _ & Havg).
  split.
  - apply Henc. reflexivity.
  - apply (Havg _ (Str "A") []). reflexivity.
Defined.

(** ** The discretizer *)

(** C10. With the empty mapping for [bins_per_column], [fit] raises
    whatever the data set: unpacking the items fails, before the column
    transformer is built. *)
Theorem discretizer_fit_rejects_empty_bins `{KBinsEdges} self X y :
  Discretizer.bins_per_column self = PDict [] →
  Discretizer.fit self X y = inl ValueError.
Proof. intros Hbins. unfold Discretizer.fit. by rewrite Hbins. Qed.

Lemma discretizer_fit_rejects_empty_bins_witness :
  Discretizer.fit (H := equal_width_edges)
    (Discretizer.__init__ (PDict []) (PStr "uniform"))
    [("age"%string, [Num (Q2Qc 19)])] [Q2Qc 10]
  = inl ValueError.
Proof.
  apply (discretizer_fit_rejects_empty_bins (H := equal_width_edges)).
  reflexivity.
Defined.

(** ** The pipeline builder *)

Lemma traverse_Forall2 {A B} (f : A → result B) (l : list A) out :
  traverse f l = inr out ↔ Forall2 (λ x y, f x = inr y) l out.
Proof.
  revert out. induction l as [|x l IH]; intros out; cbn.
  - split; [intros [= <-]; constructor|]. by inversion 1.
  - destruct (f x) as [e|y] eqn:Hx; cbn.
    + split; [done|].
      intros Hall. apply Forall2_cons_inv_l in Hall as (? & ? & ? & _). congruence.
    + destruct (traverse f l) as [e|ys] eqn:Hl; cbn.
      * split; [done|]. intros Hall.
        apply Forall2_cons_inv_l in Hall as (y' & k' & _ & Hk & _).
        by apply IH in Hk.
      * split.
        -- intros [= <-]. constructor; [done|]. by apply IH.
        -- intros Hall.
           apply Forall2_cons_inv_l in Hall as (y' & k' & Hy & Hk & ->).
           rewrite Hx in Hy. injection Hy as <-.
           apply IH in Hk. by injection Hk as <-.
Qed.

Lemma traverse_fails {A B} (f : A → result B) (l : list A) x e :
  x ∈ l → f x = inl e → ∃ e', traverse f l = inl e'.
Proof.
  intros Hx Hfx. destruct (traverse f l) as [e'|out] eqn:Htr; [by eexists|].
  apply traverse_Forall2 in Htr.
  apply list_elem_of_lookup in Hx as [i Hi].
  destruct (Forall2_lookup_l _ _ _ _ _ Htr Hi) as (y & _ & Hy). congruence.
Qed.

Lemma traverse_first_failure {A B} (f : A → result B) pre x post e :
  Forall (λ z, is_ok (f z)) pre → f x = inl e →
  traverse f (pre ++ x :: post) = inl e.
Proof.
  induction 1 as [|z pre [y Hz] _ IH]; intros Hx; cbn.
  - by rewrite Hx.
  - rewrite Hz. cbn. by rewrite IH.
Qed.

Lemma call_class_of `{DataModule} `{SklearnSignatures} `{Bagging}
    cls kwargs inst :
  call cls kwargs = inr inst → class_of inst = cls.
Proof.
  destruct cls; cbn; repeat case_match; cbn; try done;
    try (by intros [= <-]).
  destruct (CategoricalEncoder.__init__ _ _); cbn; [done|]. by intros [= <-].
Qed.

Lemma build_step_unfold `{DataModule} `{SklearnSignatures} `{Bagging}
    step s d :
  step !! "name"%string = Some (PStr s) →
  step !! "params"%string = Some (PDict d) →
  build_step step =
    match get_estimator_mapping !! s with
    | None => inl (KeyError (PStr s))
    | Some cls =>
        match call cls (list_to_map d) with
        | inl e => inl e
        | inr inst => inr (PStr s, inst)
        end
    end.
Proof.
  intros Hname Hparams. unfold build_step, dict_getitem.
  rewrite Hname, Hparams. cbn [mbind result_bind mret result_ret].
  destruct (get_estimator_mapping !! s) as [cls|]; [|done].
  cbn [mbind result_bind mret result_ret unpack_kwargs].
  by destruct (call cls (list_to_map d)).
Qed.

Lemma build_step_built_from `{DataModule} `{SklearnSignatures} `{Bagging}
    step st :
  built_from step st ↔
  build_step step = inr st
  ∧ ∃ s d, step !! "name"%string = Some (PStr s)
           ∧ step !! "params"%string = Some (PDict d).
Proof.
  unfold built_from. split.
  - intros (s & d & cls & Hname & Hparams & Hcls & Hfst & _ & Hcall).
    split; [|by eauto].
    rewrite (build_step_unfold _ s d), Hcls, Hcall by done.
    destruct st as [n e]. cbn in *. by subst.
  - intros [Hbuild (s & d & Hname & Hparams)].
    rewrite (build_step_unfold _ s d) in Hbuild by done.
    destruct (get_estimator_mapping !! s) as [cls|] eqn:Hcls; [|done].
    destruct (call cls (list_to_map d)) as [e|inst] eqn:Hcall; [done|].
    injection Hbuild as <-.
    exists s, d, cls. repeat split; try done. by eapply call_class_of.
Qed.

(** C2. For a configuration whose entries all name a class of the
    registry and carry parameters the constructor of that class accepts,
    [build_estimator] returns a pipeline whose steps are, entry by entry
    and in the order of the configuration, the entry's name paired with
    an instance of the class the registry gives for that name, built from
    the entry's parameters as keyword arguments. *)
Theorem build_estimator_follows_configuration
    `{DataModule} `{SklearnSignatures} `{Bagging} config :
  Forall valid_entry config →
  ∃ p, build_estimator config = inr p
       ∧ Forall2 built_from config (steps p)
       ∧ (steps p).*1 = (λ step, default PNone (step !! "name"%string)) <$> config.
Proof.
  intros Hvalid. unfold build_estimator.
  assert (∃ sts, Forall2 built_from config sts) as [sts Hsts].
  { induction Hvalid as [|step config [st Hst] _ [sts IH]].
    - exists []. constructor.
    - exists (st :: sts). by constructor. }
  exists {| steps := sts |}. cbn.
  assert (traverse build_step config = inr sts) as ->.
  { apply traverse_Forall2. eapply Forall2_impl; [done|].
    intros step st Hb. by apply build_step_built_from in Hb as [? _]. }
  split; [done|]. split; [done|].
  clear Hvalid. induction Hsts as [|step st config sts Hb _ IH]; [done|].
  cbn. rewrite IH. f_equal.
  destruct Hb as (s & d & cls & -> & _ & _ & -> & _). done.
Qed.

Lemma build_estimator_follows_configuration_witness :
  ∃ p, build_estimator (H := insurance_data) (H0 := no_keywords)
         (H1 := counter_bagging)
         [entry "categorical-encoder" [("one_hot"%string, PBool true)];
          entry "linear-regressor" []] = inr p
       ∧ Forall2 (built_from (H := insurance_data) (H0 := no_keywords)
                    (H1 := counter_bagging))
           [entry "categorical-encoder" [("one_hot"%string, PBool true)];
            entry "linear-regressor" []] (steps p)
       ∧ (steps p).*1
         = (λ step, default PNone (step !! "name"%string))
             <$> [entry "categorical-encoder" [("one_hot"%string, PBool true)];
                  entry "linear-regressor" []].
Proof.
  apply (build_estimator_follows_configuration (H := insurance_data)
           (H0 := no_keywords) (H1 := counter_bagging)).
  repeat constructor.
  - eexists (PStr "categorical-encoder", _).
    exists "categorical-encoder"%string, [("one_hot"%string, PBool true)],
      ClsCategoricalEncoder.
    repeat split; vm_compute; reflexivity.
  - eexists (PStr "linear-regressor", _).
    exists "linear-regressor"%string, [], (ClsSklearn LinearRegression).
    repeat split; vm_compute; reflexivity.
Defined.

Lemma unknown_name_raises_KeyError_instead :
  build_estimator (H := insurance_data) (H0 := no_keywords)
    (H1 := counter_bagging) [entry "random-forest" []]
  = inl (KeyError (PStr "random-forest"))
  ∧ ¬ unknown_name_raises_UnknownStepError (H := insurance_data)
        (H0 := no_keywords) (H1 := counter_bagging).
Proof.
  split; [reflexivity|].
  intros Hclaim.
  specialize (Hclaim [entry "random-forest" []] (entry "random-forest" [])
                "random-forest"%string).
  assert (build_estimator (H := insurance_data) (H0 := no_keywords)
            (H1 := counter_bagging) [entry "random-forest" []]
          = inl (KeyError (PStr "random-forest"))) as Heval by reflexivity.
  rewrite Heval in Hclaim.
  discriminate Hclaim; [left|reflexivity|reflexivity].
Qed.

(** C7, amended. For a configuration with an entry whose name is not a
    key of the registry, [build_estimator] fails and returns no pipeline;
    when the entries before that one are all built and the entry has its
    parameters, the failure is the [KeyError] of the registry lookup, with
    the unknown name as its key. *)
Theorem build_estimator_unknown_name
    `{DataModule} `{SklearnSignatures} `{Bagging} config step s :
  step ∈ config →
  step !! "name"%string = Some (PStr s) →
  get_estimator_mapping !! s = None →
  (∃ e, build_estimator config = inl e)
  ∧ ∀ pre post,
      config = pre ++ step :: post →
      Forall (λ st, is_ok (build_step st)) pre →
      is_Some (step !! "params"%string) →
      build_estimator config = inl (KeyError (PStr s)).
Proof.
  intros Hin Hname Hunknown.
  assert (∃ e, build_step step = inl e) as [e He].
  { unfold build_step, dict_getitem. rewrite Hname.
    cbn [mbind result_bind mret result_ret].
    destruct (step !! "params"%string); [|by eexists].
    rewrite Hunknown. by eexists. }
  split.
  - destruct (traverse_fails build_step config step e Hin He) as [e' He'].
    exists e'. unfold build_estimator. by rewrite He'.
  - intros pre post -> Hpre [params Hparams].
    unfold build_estimator.
    rewrite (traverse_first_failure _ _ _ _ (KeyError (PStr s))); [done..|].
    unfold build_step, dict_getitem. rewrite Hname, Hparams.
    cbn [mbind result_bind mret result_ret]. by rewrite Hunknown.
Qed.

Lemma build_estimator_unknown_name_witness :
  (∃ e, build_estimator (H := insurance_data) (H0 := no_keywords)
          (H1 := counter_bagging)
          [entry "standard-scaler" []; entry "random-forest" []] = inl e)
  ∧ ∀ pre post,
      [entry "standard-scaler" []; entry "random-forest" []]
      = pre ++ entry "random-forest" [] :: post →
      Forall (λ st, is_ok (build_step (H := insurance_data)
                             (H0 := no_keywords) (H1 := counter_bagging) st)) pre →
      is_Some (entry "random-forest" [] !! "params"%string) →
      build_estimator (H := insurance_data) (H0 := no_keywords)
        (H1 := counter_bagging)
        [entry "standard-scaler" []; entry "random-forest" []]
      = inl (KeyError (PStr "random-forest")).
Proof.
  apply (build_estimator_unknown_name (H := insurance_data)
           (H0 := no_keywords) (H1 := counter_bagging)
           _ _ "random-forest"%string).
  - right. left.
  - reflexivity.
  - reflexivity.
Defined.

(** ** Column selection and the encoders *)

Lemma select_Forall2 names X cols :
  sklearn.select names X = inr cols
  ↔ Forall2 (λ n c, column n X = Some c) names cols.
Proof.
  unfold sklearn.select. rewrite traverse_Forall2.
  split; intros Hall; (eapply Forall2_impl; [exact Hall|]); intros n c; cbn;
    destruct (column n X); unfold raise, mret, result_ret; congruence.
Qed.

Lemma select_raises names X e :
  sklearn.select names X = inl e → e = ValueError.
Proof.
  unfold sklearn.select. induction names as [|n names IH]; cbn; [done|].
  destruct (column n X); cbn; [|by intros [= <-]].
  destruct (traverse _ names); cbn; [|done]. intros [= <-]. by apply IH.
Qed.

Lemma select_ext names X X' :
  (∀ n, n ∈ names → column n X' = column n X) →
  sklearn.select names X' = sklearn.select names X.
Proof.
  unfold sklearn.select. induction names as [|n names IH]; intros Hsame; [done|].
  cbn. rewrite Hsame by left. rewrite IH; [done|].
  intros n' Hn'. apply Hsame. by right.
Qed.



(** Indexing by name returns what the selection of [fit] returns; the two
    differ in the exception for a missing column. *)
Lemma safe_indexing_select names X sel :
  sklearn.safe_indexing names X = inr sel ↔ sklearn.select names X = inr sel.
Proof.
  rewrite select_Forall2. unfold sklearn.safe_indexing. rewrite traverse_Forall2.
  split; intros Hall; (eapply Forall2_impl; [exact Hall|]); intros n c;
    unfold getitem; destruct (column n X); unfold raise, mret, result_ret;
    congruence.
Qed.


Lemma safe_indexing_ext names X X' :
  (∀ n, n ∈ names → column n X' = column n X) →
  sklearn.safe_indexing names X' = sklearn.safe_indexing names X.
Proof.
  unfold sklearn.safe_indexing.
  induction names as [|n names IH]; intros Hsame; [done|].
  cbn. rewrite IH by (intros n' Hn'; apply Hsame; by right).
  unfold getitem. by rewrite Hsame by left.
Qed.






Lemma check_samples_ok {A} (col : list A) :
  col ≠ [] → sklearn.check_samples col = inr ().
Proof. by destruct col. Qed.










(** ** The categorical encoder *)

Lemma encoder_fit_inv self X0 y self' :
  CategoricalEncoder.fit self X0 y = inr self' →
  CategoricalEncoder._column_transformer self'
  = Some {| sklearn.encoder_ :=
              if truthy (CategoricalEncoder.one_hot self)
              then sklearn.FittedOneHot (CategoricalEncoder.categories self)
              else sklearn.FittedOrdinal (CategoricalEncoder.categories self);
            sklearn.encoder_columns := CategoricalEncoder.categorical_column_names self;
            sklearn.remainder_columns := [] |}.
Proof.
  unfold CategoricalEncoder.fit, sklearn.fit, CategoricalEncoder.encoder_cls.
  destruct (sklearn.select _ X0) as [|sel]; cbn; [done|].
  destruct (truthy (CategoricalEncoder.one_hot self)); cbn;
    destruct (sklearn.encode_columns _ _ sel); cbn; try done;
    by intros [= <-].
Qed.

Lemma encoder_transform_unfold self X0 y self' X :
  CategoricalEncoder.fit self X0 y = inr self' →
  CategoricalEncoder.transform self' X =
    match sklearn.safe_indexing
            (CategoricalEncoder.categorical_column_names self) X with
    | inl e => inl e
    | inr sel =>
        match sklearn.encode_columns
                (if truthy (CategoricalEncoder.one_hot self)
                 then sklearn.one_hot_column else sklearn.ordinal_column)
                (CategoricalEncoder.categories self) sel with
        | inl e => inl e
        | inr blocks => inr (concat blocks)
        end
    end.
Proof.
  intros Hfit. unfold CategoricalEncoder.transform.
  rewrite (encoder_fit_inv _ _ _ _ Hfit). unfold sklearn.transform.
  cbn [sklearn.encoder_ sklearn.encoder_columns sklearn.remainder_columns].
  change (sklearn.select [] X) with (inr (A := error) (@nil (list cell))).
  cbn [mbind result_bind].
  destruct (sklearn.safe_indexing _ X) as [|sel]; cbn [mbind result_bind]; [done|].
  destruct (truthy (CategoricalEncoder.one_hot self)); cbn;
    destruct (sklearn.encode_columns _ _ sel); cbn; try done;
    by rewrite app_nil_r.
Qed.










(** The other exceptions of an input with a value outside the declared
    categories: pandas' [KeyError] when another categorical column is
    missing, [TypeError] for a number where the categories are strings. *)
Example unknown_category_and_missing_column :
  CategoricalEncoder.transform fitted_insurance_encoder no_smoker_rows
  = inl (KeyError (PStr "smoker")).
Proof. reflexivity. Qed.

Example unknown_category_of_another_type :
  CategoricalEncoder.transform fitted_insurance_encoder number_for_sex_rows
  = inl TypeError.
Proof. reflexivity. Qed.

(** ** The discretizer's transform *)

Lemma as_int_inv `{KBinsEdges} v z :
  sklearn.as_int v = inr z → sklearn.bad_nbins_value v z = false →
  v = PInt z ∧ (2 ≤ z)%Z.
Proof.
  unfold sklearn.as_int, sklearn.bad_nbins_value. intros Hz Hbad.
  apply orb_false_iff in Hbad as [Hlt Hstr]. apply Z.ltb_ge in Hlt.
  destruct v as [|b|z0|s|d]; try done;
    cbn [mbind result_bind mret result_ret] in Hz;
    (case_decide; [|done]); injection Hz as <-.
  - destruct b; lia.
  - done.
Qed.

Lemma validate_n_bins_inv `{KBinsEdges} n_bins k ns :
  sklearn.validate_n_bins n_bins k = inr ns →
  length ns = k
  ∧ Forall2 (λ v n, v = PInt (Z.of_nat n) ∧ 2 ≤ n) n_bins ns.
Proof.
  unfold sklearn.validate_n_bins.
  destruct (traverse sklearn.as_int n_bins) as [|zs] eqn:Hzs;
    cbn [mbind result_bind]; [done|].
  case_decide as Hlen; [|done].
  destruct (existsb _ _) eqn:Hbad; [done|]. intros [= <-].
  split; [by rewrite length_fmap|].
  apply traverse_Forall2 in Hzs. apply Forall2_fmap_r.
  clear Hlen. induction Hzs as [|v z n_bins zs Hv _ IH]; [constructor|].
  cbn in Hbad. apply orb_false_iff in Hbad as [Hbad Hrest].
  constructor; [|by apply IH].
  destruct (as_int_inv v z Hv Hbad) as [-> Hz].
  split; [f_equal|]; lia.
Qed.

Lemma bin_of_le edges x : sklearn.bin_of edges x ≤ length edges.
Proof. unfold sklearn.bin_of. apply length_filter. Qed.

Lemma as_number_numeric `{KBinsEdges} col :
  numeric col →
  ∃ xs, traverse sklearn.as_number col = inr xs ∧ length xs = length col.
Proof.
  induction 1 as [|c col [q Hq] _ (xs & Hxs & Hlen)]; cbn; [by exists []|].
  destruct c; try done. cbn. rewrite Hxs. cbn. exists (q0 :: xs). cbn.
  by rewrite Hlen.
Qed.

Lemma numeric_column_ok `{KBinsEdges} col :
  numeric col → col ≠ [] →
  ∃ xs, sklearn.numeric_column col = inr xs ∧ length xs = length col.
Proof.
  intros Hnum Hrows. unfold sklearn.numeric_column.
  rewrite (check_samples_ok col Hrows). cbn [mbind result_bind].
  by apply as_number_numeric.
Qed.

Lemma inner_edges_zip `{KBinsEdges} s ns (xss : list (list Qc)) :
  length ns = length xss →
  Forall2 (λ n e, length e ≤ n - 1) ns (zip_with (inner_edges s) ns xss).
Proof.
  revert xss. induction ns as [|n ns IH]; intros [|xs xss] Hlen; try done;
    cbn; constructor; [apply inner_edges_length|].
  apply IH. by injection Hlen.
Qed.

Lemma kbins_transform_columns_ok `{KBinsEdges} es cols :
  length es = length cols →
  Forall (λ col, numeric col ∧ col ≠ []) cols →
  ∃ out, sklearn.kbins_transform_columns es cols = inr out
         ∧ Forall2 (λ ec codes,
                      length codes = length ec.2
                      ∧ Forall (λ c, ∃ k, c = sklearn.code k ∧ k ≤ length ec.1) codes)
             (zip es cols) out.
Proof.
  revert cols. induction es as [|e es IH]; intros [|col cols] Hlen Hnum;
    try done; cbn.
  - exists []. split; [done|constructor].
  - apply Forall_cons in Hnum as [[Hcol Hrows] Hcols].
    destruct (numeric_column_ok col Hcol Hrows) as (xs & -> & Hxs). cbn.
    destruct (IH cols) as (out & -> & Hout); [by injection Hlen|done|]. cbn.
    eexists. split; [done|]. constructor; [|done]. cbn. split.
    + by rewrite length_fmap.
    + apply Forall_fmap, Forall_forall. intros x _. cbn.
      eexists. split; [done|]. apply bin_of_le.
Qed.

Lemma column_of_elem X n c :
  NoDup (columns X) → (n, c) ∈ X → column n X = Some c.
Proof.
  unfold columns. induction X as [|[n0 c0] X IH]; cbn; intros Hnodup Hin.
  - by apply elem_of_nil in Hin.
  - apply NoDup_cons in Hnodup as [Hfresh Hnodup].
    apply elem_of_cons in Hin as [[= -> ->]|Hin].
    + by rewrite decide_True.
    + rewrite decide_False; [by apply IH|].
      intros ->. apply Hfresh. apply list_elem_of_fmap. by exists (n, c).
Qed.

Lemma filter_columns (P : string → Prop) `{∀ n, Decision (P n)} (X : frame) :
  filter P (columns X) = (filter (λ p, P p.1) X).*1.
Proof.
  unfold columns. induction X as [|[n c] X IH]; [done|].
  rewrite fmap_cons. cbn [fst]. destruct (decide (P n)) as [Hp|Hp].
  - rewrite filter_cons_True by done.
    rewrite (filter_cons_True (λ p : string * list cell, P p.1)) by done.
    rewrite fmap_cons. cbn [fst]. by rewrite IH.
  - rewrite filter_cons_False by done.
    by rewrite (filter_cons_False (λ p : string * list cell, P p.1)).
Qed.

Lemma select_filtered (P : string → Prop) `{∀ n, Decision (P n)} (X : frame) :
  NoDup (columns X) →
  sklearn.select (filter P (columns X)) X = inr (filter (λ p, P p.1) X).*2.
Proof.
  intros Hnodup. rewrite filter_columns. apply select_Forall2.
  assert (Forall (λ p, p ∈ X) (filter (λ p, P p.1) X)) as Hsub.
  { apply Forall_forall. intros p Hp. by apply list_elem_of_filter in Hp as [_ ?]. }
  induction Hsub as [|[n c] l Hin _ IH]; cbn; constructor; [|done].
  by apply column_of_elem.
Qed.

Lemma zip_fst_snd {A B} (l : list (A * B)) : zip l.*1 l.*2 = l.
Proof. induction l as [|[a b] l IH]; cbn; [done|]. by rewrite IH. Qed.

Lemma zip_app {A B} (l1 l2 : list A) (k1 k2 : list B) :
  length l1 = length k1 → zip (l1 ++ l2) (k1 ++ k2) = zip l1 k1 ++ zip l2 k2.
Proof.
  revert k1. induction l1 as [|a l1 IH]; intros [|b k1] Hlen; try done.
  cbn. rewrite IH; [done|]. by injection Hlen.
Qed.

Lemma columns_zip (names : list string) (cols : list (list cell)) :
  length names = length cols → columns (zip names cols) = names.
Proof. intros Hlen. unfold columns. apply fst_zip. lia. Qed.

Lemma select_elem_of names X sel :
  sklearn.select names X = inr sel → ∀ n, n ∈ names → n ∈ columns X.
Proof.
  intros Hsel n Hn. apply select_Forall2 in Hsel.
  apply list_elem_of_lookup in Hn as [i Hi].
  destruct (Forall2_lookup_l _ _ _ _ _ Hsel Hi) as (c & _ & Hc).
  destruct (decide (n ∈ columns X)) as [|Hnot]; [done|].
  apply column_None in Hnot. congruence.
Qed.

Lemma select_ok names X :
  (∀ n, n ∈ names → n ∈ columns X) → is_ok (sklearn.select names X).
Proof.
  intros Hin. unfold sklearn.select.
  induction names as [|n names IH]; cbn; [by eexists|].
  destruct (column n X) as [c|] eqn:Hc.
  - destruct IH as [sel Hsel]; [intros; apply Hin; by right|].
    cbn. rewrite Hsel. by eexists.
  - apply column_None in Hc. destruct Hc. apply Hin. left.
Qed.

(** What a successful [fit] went through and what it stored: the
    configured columns of the training frame are numeric columns of one
    row or more, the bin counts are valid, and the edges are those the
    library puts for each column and its count. *)
Lemma discretizer_fit_inv `{KBinsEdges} self X0 y d its :
  Discretizer.bins_per_column self = PDict its →
  Discretizer.fit self X0 y = inr d →
  ∃ s ns sel0 xss,
    sklearn.validate_n_bins its.*2 (length sel0) = inr ns
    ∧ sklearn.select its.*1 X0 = inr sel0
    ∧ traverse sklearn.numeric_column sel0 = inr xss
    ∧ Discretizer._column_transformer d
      = Some {| sklearn.encoder_ :=
                  sklearn.FittedKBins (zip_with (inner_edges s) ns xss);
                sklearn.encoder_columns := its.*1;
                sklearn.remainder_columns :=
                  filter (λ n, n ∉ its.*1) (columns X0) |}
    ∧ Discretizer.new_column_order_ d
      = Some (its.*1 ++ filter (λ n, n ∉ its.*1) (columns X0)).
Proof.
  intros Hbins. unfold Discretizer.fit. rewrite Hbins.
  cbn [Discretizer.items mbind result_bind mret result_ret].
  destruct its as [|it its]; [done|].
  cbn [Discretizer.unzip_pairs mbind result_bind mret result_ret].
  unfold sklearn.fit.
  destruct (sklearn.select _ X0) as [|sel0]; cbn [mbind result_bind]; [done|].
  cbn [sklearn.fit_transformer].
  destruct (traverse sklearn.numeric_column sel0) as [|xss] eqn:Hxss;
    cbn [mbind result_bind]; [done|].
  destruct (sklearn.check_strategy _) as [|s]; cbn [mbind result_bind]; [done|].
  destruct (sklearn.validate_n_bins _ _) as [|ns] eqn:Hns;
    cbn [mbind result_bind mret result_ret]; [done|].
  intros [= <-]. by exists s, ns, sel0, xss.
Qed.

Lemma discretizer_needs_the_fitted_columns :
  Discretizer.fit (H := equal_width_edges) age_discretizer age_bmi charges
  = inr fitted_age_discretizer
  ∧ Discretizer.transform fitted_age_discretizer age_only = inl ValueError
  ∧ ¬ discretizer_accepts_configured_columns (H := equal_width_edges).
Proof.
  split; [reflexivity|]. split; [reflexivity|].
  intros Hclaim.
  destruct (Hclaim age_discretizer age_bmi charges fitted_age_discretizer
              age_bins age_only eq_refl eq_refl) as [out Hout].
  - intros name Hname. apply list_elem_of_singleton in Hname as ->. left.
  - assert (Discretizer.transform fitted_age_discretizer age_only
            = inl ValueError) as Heval by reflexivity.
    rewrite Heval in Hout. discriminate Hout.
Qed.

Lemma discretizer_DataFrame names rem (out rest : list (list cell)) :
  length names = length out → length rem = length rest →
  Discretizer.DataFrame (out ++ rest) (names ++ rem)
  = inr (zip names out ++ zip rem rest).
Proof.
  intros Hout Hrest. unfold Discretizer.DataFrame.
  rewrite decide_True by (rewrite !length_app; lia).
  by rewrite zip_app.
Qed.

(** C3, amended. For a fitted discretizer and an input that has the
    columns of the data set it was fitted on, under distinct names, with
    one row or more and numbers in the configured columns, [transform]
    returns the configured columns, in the configured order, each turned
    into integer codes from 0 to its bin count less one, followed by all
    the other columns of the input in their original relative order with
    their values unchanged.  [transform] reads the fitted object and
    assigns nothing, so a second call on the same input returns the same
    frame. *)
Theorem discretizer_transform_bins_and_reorders `{KBinsEdges}
    self X0 y d its X :
  Discretizer.bins_per_column self = PDict its →
  Discretizer.fit self X0 y = inr d →
  columns X = columns X0 →
  NoDup (columns X) →
  (∀ name col, name ∈ its.*1 → column name X = Some col →
               numeric col ∧ col ≠ []) →
  ∃ binned,
    Discretizer.transform d X
    = inr (zip its.*1 binned ++ filter (λ p, p.1 ∉ its.*1) X)
    ∧ columns (zip its.*1 binned ++ filter (λ p, p.1 ∉ its.*1) X)
      = its.*1 ++ filter (λ n, n ∉ its.*1) (columns X)
    ∧ Forall2 (λ it codes,
                 ∃ col, column it.1 X = Some col
                        ∧ ordinal_codes it.2 (length col) codes)
        its binned.
Proof.
  intros Hbins Hfit Hcols Hnodup Hnum.
  destruct (discretizer_fit_inv _ _ _ _ _ Hbins Hfit)
    as (s & ns & sel0 & xss & Hns & Hsel0 & Hxss & Hct & Horder).
  apply validate_n_bins_inv in Hns as [Hlen_ns Hns].
  assert (length sel0 = length its) as Hlen_sel0.
  { apply select_Forall2, Forall2_length in Hsel0.
    by rewrite length_fmap in Hsel0. }
  assert (length xss = length its) as Hlen_xss.
  { apply traverse_Forall2, Forall2_length in Hxss. lia. }
  set (es := zip_with (inner_edges s) ns xss) in *.
  assert (Forall2 (λ n e, length e ≤ n - 1) ns es) as Hedges
    by (apply inner_edges_zip; lia).
  assert (length es = length its) as Hlen_es.
  { apply Forall2_length in Hedges. lia. }
  destruct (select_ok its.*1 X) as [sel Hsel].
  { intros n Hn. rewrite Hcols. by eapply select_elem_of. }
  pose proof Hsel as Hsel2. apply select_Forall2 in Hsel2.
  assert (length sel = length its) as Hlen_sel.
  { apply Forall2_length in Hsel2. by rewrite length_fmap in Hsel2. }
  destruct (kbins_transform_columns_ok es sel) as (out & Hout & Hcodes).
  { lia. }
  { apply Forall_forall. intros col Hcol.
    apply list_elem_of_lookup in Hcol as [j Hj].
    destruct (Forall2_lookup_r _ _ _ _ _ Hsel2 Hj) as (name & Hname & Hcolumn).
    eapply Hnum; [|done]. by eapply list_elem_of_lookup_2. }
  assert (length out = length its) as Hlen_out.
  { apply Forall2_length in Hcodes. rewrite length_zip in Hcodes. lia. }
  exists out.
  assert (length its.*1 = length out) as Hnames by (rewrite length_fmap; lia).
  split; [|split].
  - unfold Discretizer.transform. rewrite Hct, Horder.
    unfold sklearn.transform.
    cbn [sklearn.encoder_ sklearn.encoder_columns sklearn.remainder_columns].
    rewrite <- Hcols, (select_filtered (λ n, n ∉ its.*1) X Hnodup).
    cbn [mbind result_bind].
    rewrite (proj2 (safe_indexing_select _ _ _) Hsel).
    cbn [mbind result_bind sklearn.transform_transformer].
    rewrite Hout. cbn [mbind result_bind mret result_ret].
    rewrite filter_columns, discretizer_DataFrame;
      [|done|by rewrite !length_fmap].
    by rewrite zip_fst_snd.
  - rewrite filter_columns. unfold columns. rewrite fmap_app. f_equal.
    apply fst_zip. lia.
  - apply Forall2_same_length_lookup_2; [lia|].
    intros j [name v] codes Hit Hj. cbn [fst snd].
    assert (its.*1 !! j = Some name) as Hname
      by (by rewrite list_lookup_fmap, Hit).
    assert (its.*2 !! j = Some v) as Hv
      by (by rewrite list_lookup_fmap, Hit).
    destruct (Forall2_lookup_l _ _ _ _ _ Hsel2 Hname) as (col & Hcol & Hcolumn).
    destruct (Forall2_lookup_l _ _ _ _ _ Hns Hv) as (n & Hn & -> & Hn2).
    destruct (Forall2_lookup_l _ _ _ _ _ Hedges Hn) as (e & He & Hle).
    assert (zip es sel !! j = Some (e, col)) as Hzip.
    { apply lookup_zip_with_Some. by exists e, col. }
    destruct (Forall2_lookup_lr _ _ _ _ _ _ Hcodes Hzip Hj) as [Hrows Hrange].
    exists col. split; [done|]. exists (Z.of_nat n).
    split; [done|]. split; [done|].
    eapply Forall_impl; [exact Hrange|].
    intros c (k & -> & Hk). exists k. split; [done|]. cbn in Hk. lia.
Qed.

Lemma discretizer_transform_bins_and_reorders_witness :
  ∃ binned,
    Discretizer.transform fitted_age_discretizer age_bmi
    = inr (zip age_bins.*1 binned ++ filter (λ p, p.1 ∉ age_bins.*1) age_bmi)
    ∧ columns (zip age_bins.*1 binned ++ filter (λ p, p.1 ∉ age_bins.*1) age_bmi)
      = age_bins.*1 ++ filter (λ n, n ∉ age_bins.*1) (columns age_bmi)
    ∧ Forall2 (λ it codes,
                 ∃ col, column it.1 age_bmi = Some col
                        ∧ ordinal_codes it.2 (length col) codes)
        age_bins binned.
Proof.
  apply (discretizer_transform_bins_and_reorders (H := equal_width_edges)
           age_discretizer age_bmi charges fitted_age_discretizer age_bins age_bmi).
  - reflexivity.
  - reflexivity.
  - reflexivity.
  - apply (bool_decide_unpack (NoDup (columns age_bmi))). vm_compute. reflexivity.
  - intros name col Hname Hcol.
    apply list_elem_of_singleton in Hname. subst name.
    injection Hcol as <-. split; [|discriminate].
    repeat constructor; by eexists.
Defined.

(** A fitted discretizer refuses a frame that has the fitted columns and
    no row. *)
Example discretizer_on_no_rows :
  Discretizer.transform fitted_age_discretizer
    [("age"%string, []); ("bmi"%string, [])]
  = inl ValueError.
Proof. reflexivity. Qed.

(** Three equal-width bins over ages 19, 33 and 61: the inner edges are
    33 and 47, so the codes are 0, 1 and 2, and [bmi] passes through. *)
Example discretizer_on_age_bmi :
  Discretizer.transform fitted_age_discretizer age_bmi
  = inr [("age"%string, [sklearn.code 0; sklearn.code 1; sklearn.code 2]);
         ("bmi"%string,
          [Num (Q2Qc (279 # 10)); Num (Q2Qc (227 # 10)); Num (Q2Qc 30)])].
Proof. vm_compute. reflexivity. Qed.

(** The insurance encoder on two rows: one column per categorical
    feature in ordinal mode; 1 + 1 + 3 indicator columns in one-hot mode,
    the first declared category of each feature being all zeros. *)
Example ordinal_on_insurance_rows :
  CategoricalEncoder.transform fitted_insurance_encoder insurance_rows
  = inr [[sklearn.code 0; sklearn.code 1];
         [sklearn.code 1; sklearn.code 0];
         [sklearn.code 3; sklearn.code 0]].
Proof. vm_compute. reflexivity. Qed.

Example one_hot_on_insurance_rows :
  (self' ← CategoricalEncoder.fit one_hot_insurance_encoder insurance_rows None;
   CategoricalEncoder.transform self' insurance_rows)
  = inr [[sklearn.code 0; sklearn.code 1];
         [sklearn.code 1; sklearn.code 0];
         [sklearn.code 0; sklearn.code 0];
         [sklearn.code 0; sklearn.code 0];
         [sklearn.code 1; sklearn.code 0]].
Proof. vm_compute. reflexivity. Qed.

(** The first constructor that raises ends the loop of the builder. *)
Example build_estimator_bad_params :
  build_estimator (H := insurance_data) (H0 := no_keywords)
    (H1 := counter_bagging)
    [entry "bagging" [("n_estimators"%string, PInt 10)];
     entry "random-forest" []]
  = inl TypeError.
Proof. reflexivity. Qed.

(** An unseeded library fit depends on the state of the process-wide
    generator; the wrapper passes the seed 0. *)
Example unseeded_fit_depends_on_generator :
  (BaggingRegressor_fit (Bagging := counter_bagging) None 1%Z [] []).1
  ≠ (BaggingRegressor_fit (Bagging := counter_bagging) None 2%Z [] []).1.
Proof. cbn. intros Heq. discriminate Heq. Qed.

(** The steps of the examples are what the constructors and [fit]
    return. *)
Example regressor_fit_on_training :
  AverageChargesPerRegionRegressor.fit
    AverageChargesPerRegionRegressor.new training charges
  = inr fitted_regressor.
Proof. reflexivity. Qed.

Example insurance_encoder_init :
  CategoricalEncoder.__init__ (H := insurance_data) (PBool false) (PBool false)
  = inr insurance_encoder.
Proof. reflexivity. Qed.

Example insurance_encoder_fit :
  CategoricalEncoder.fit insurance_encoder insurance_rows None
  = inr fitted_insurance_encoder.
Proof. reflexivity. Qed.

(** The extractor on a frame with a column it does not know: the region
    C gets the mean of all charges. *)
Example extractor_on_unseen_region :
  AverageChargesPerRegionExtractor.transform_frame fitted_extractor
    [("age"%string, [Num (Q2Qc 19); Num (Q2Qc 33)]);
     ("region"%string, [Str "B"; Str "C"])]
  = inr [("age"%string, [Num (Q2Qc 19); Num (Q2Qc 33)]);
         ("region"%string, [Str "B"; Str "C"]);
         (new_column, [Num (Q2Qc 50); Num (Q2Qc (80 # 3))])].
Proof.
  unfold fitted_extractor.
  rewrite (extractor_transform_frame regions charges _ [Str "B"; Str "C"]) by done.
  cbn [fmap list_fmap].
  rewrite example_average_B, example_average_unseen by done. reflexivity.
Qed.

(** * Further properties *)

(** ** The pipeline builder: composition and errors *)

Lemma traverse_app {A B} (f : A → result B) (l1 l2 : list A) :
  traverse f (l1 ++ l2)
  = (xs ← traverse f l1; ys ← traverse f l2; mret (xs ++ ys)).
Proof.
  induction l1 as [|x l1 IH]; cbn.
  - by destruct (traverse f l2).
  - destruct (f x); cbn; [done|]. rewrite IH.
    destruct (traverse f l1); cbn; [done|]. by destruct (traverse f l2).
Qed.

(** X1. Building the concatenation of two configurations is building
    each and chaining the steps, the first exception of the first
    configuration, else of the second, ending the build. *)
Theorem build_estimator_app `{DataModule} `{SklearnSignatures} `{Bagging}
    (config1 config2 : list (gmap string pyval)) :
  build_estimator (config1 ++ config2)
  = (p1 ← build_estimator config1;
     p2 ← build_estimator config2;
     mret {| steps := steps p1 ++ steps p2 |}).
Proof.
  unfold build_estimator. rewrite traverse_app.
  destruct (traverse build_step config1); cbn; [done|].
  by destruct (traverse build_step config2).
Qed.

Lemma traverse_raises_such {A B} (P : error → Prop) (f : A → result B) l e :
  (∀ x e', x ∈ l → f x = inl e' → P e') → traverse f l = inl e → P e.
Proof.
  induction l as [|x l IH]; intros Hf; cbn; [done|].
  destruct (f x) as [e'|y] eqn:Hx; cbn.
  - intros [= <-]. eapply Hf; [left|done].
  - destruct (traverse f l); cbn; [|done]. intros [= <-].
    apply IH; [|done]. intros z e' Hz. apply Hf. by right.
Qed.

Lemma dom_two_keys (kwargs : gmap string pyval) (a b : string) :
  a ≠ b →
  dom kwargs = {[ a; b ]}
  ↔ is_Some (kwargs !! a) ∧ is_Some (kwargs !! b) ∧ size kwargs = 2.
Proof.
  intros Hab. split.
  - intros Hdom. rewrite <- !elem_of_dom, <- size_dom, Hdom.
    split; [apply elem_of_union_l, elem_of_singleton; done|].
    split; [apply elem_of_union_r, elem_of_singleton; done|].
    rewrite size_union by (apply disjoint_singleton_l, not_elem_of_singleton; done).
    by rewrite !size_singleton.
  - intros (Ha & Hb & Hsize). apply elem_of_dom in Ha, Hb.
    symmetry. apply set_subseteq_size_eq.
    { intros k [->%elem_of_singleton| ->%elem_of_singleton]%elem_of_union; done. }
    rewrite size_dom, Hsize,
      size_union by (apply disjoint_singleton_l, not_elem_of_singleton; done).
    by rewrite !size_singleton.
Qed.

Lemma call_TypeError `{DataModule} `{SklearnSignatures} `{Bagging} cls kwargs :
  call cls kwargs = inl TypeError ↔ rejects cls kwargs.
Proof.
  destruct cls; cbn.
  - case_decide; split; done.
  - case_decide; split; done.
  - destruct (accepts c kwargs); split; done.
  - case_decide as Hsub; [|done]. split; [|by intros []].
    unfold CategoricalEncoder.__init__.
    destruct (traverse _ _) as [e|cats] eqn:Htr; cbn; [|done].
    intros [= ->]. exfalso.
    eapply (traverse_raises_such (λ e, e ≠ TypeError)) in Htr; [done|].
    intros x e' _. by destruct (_ !! x); intros [= <-].
  - case_decide; split; done.
  - rewrite (dom_two_keys kwargs "bins_per_column" "strategy") by done.
    destruct (kwargs !! "bins_per_column"%string) as [b|] eqn:Hb;
      destruct (kwargs !! "strategy"%string) as [s|] eqn:Hs;
      try (split; [intros _|done]; intros (Hb' & Hs' & _);
           by (destruct Hb' || destruct Hs')).
    case_decide; split; try done.
    + intros []. by eauto.
    + intros _ (_ & _ & ?). done.
Qed.

Lemma valid_entry_builds `{DataModule} `{SklearnSignatures} `{Bagging} pre :
  Forall valid_entry pre → Forall (λ st, is_ok (build_step st)) pre.
Proof.
  intros Hpre. eapply Forall_impl; [exact Hpre|]. intros step [st Hst].
  apply build_step_built_from in Hst as [Hst _]. by exists st.
Qed.

Lemma build_estimator_first_failure `{DataModule} `{SklearnSignatures} `{Bagging}
    pre step post e :
  Forall valid_entry pre → build_step step = inl e →
  build_estimator (pre ++ step :: post) = inl e.
Proof.
  intros Hpre Hstep. unfold build_estimator.
  by rewrite (traverse_first_failure _ _ _ _ e)
    by (try apply valid_entry_builds; done).
Qed.

(** X2. The first entry that cannot be built ends the build with its own
    exception: the [KeyError] of the missing key for an entry without
    ["name"], or with a name and without ["params"]; [TypeError] for
    parameters that are no mapping, or whose keywords the constructor of
    the named class does not take. *)
Theorem build_estimator_entry_errors `{DataModule} `{SklearnSignatures} `{Bagging}
    pre step post :
  Forall valid_entry pre →
  (step !! "name"%string = None →
   build_estimator (pre ++ step :: post) = inl (KeyError (PStr "name")))
  ∧ (is_Some (step !! "name"%string) → step !! "params"%string = None →
     build_estimator (pre ++ step :: post) = inl (KeyError (PStr "params")))
  ∧ (∀ s params cls,
       step !! "name"%string = Some (PStr s) →
       step !! "params"%string = Some params →
       get_estimator_mapping !! s = Some cls →
       match params with
       | PDict d => rejects cls (list_to_map d)
       | _ => True
       end →
       build_estimator (pre ++ step :: post) = inl TypeError).
Proof.
  intros Hpre. split; [|split].
  - intros Hname. apply build_estimator_first_failure; [done|].
    unfold build_step, dict_getitem. by rewrite Hname.
  - intros [name Hname] Hparams. apply build_estimator_first_failure; [done|].
    unfold build_step, dict_getitem. by rewrite Hname, Hparams.
  - intros s params cls Hname Hparams Hcls Hrej.
    apply build_estimator_first_failure; [done|].
    unfold build_step, dict_getitem. rewrite Hname, Hparams.
    cbn [mbind result_bind mret result_ret]. rewrite Hcls.
    cbn [mbind result_bind mret result_ret].
    destruct params as [| | | |d]; try done.
    cbn [unpack_kwargs mbind result_bind mret result_ret].
    apply call_TypeError in Hrej. by rewrite Hrej.
Qed.

Lemma build_estimator_entry_errors_witness :
  build_estimator (H := insurance_data) (H0 := no_keywords)
    (H1 := counter_bagging)
    ([entry "standard-scaler" []]
       ++ entry "discretizer" [("strategy"%string, PStr "uniform")]
       :: [entry "linear-regressor" []])
  = inl TypeError.
Proof.
  apply (build_estimator_entry_errors (H := insurance_data)
           (H0 := no_keywords) (H1 := counter_bagging)
           [entry "standard-scaler" []]
           (entry "discretizer" [("strategy"%string, PStr "uniform")])
           [entry "linear-regressor" []])
    with (s := "discretizer"%string) (cls := ClsDiscretizer)
         (params := PDict [("strategy"%string, PStr "uniform")]).
  - repeat constructor.
    eexists (PStr "standard-scaler", _).
    exists "standard-scaler"%string, [], (ClsSklearn StandardScaler).
    repeat split; vm_compute; reflexivity.
  - reflexivity.
  - reflexivity.
  - reflexivity.
  - apply (bool_decide_unpack
             (dom (list_to_map [("strategy"%string, PStr "uniform")]
                     : gmap string pyval)
              ≠ {[ "bins_per_column"%string; "strategy"%string ]})).
    vm_compute. reflexivity.
Defined.

(** ** The categorical encoder: construction and fitting *)

Lemma traverse_ok {A B} (f : A → result B) (l : list A) :
  Forall (λ x, is_ok (f x)) l → is_ok (traverse f l).
Proof.
  induction 1 as [|x l [y Hy] _ [ys Hys]]; cbn; [by eexists|].
  rewrite Hy. cbn. rewrite Hys. by eexists.
Qed.

(** X3. The constructor of the encoder lists the binary columns, then the
    categorical ones, and pairs each with the values the registry
    declares for it, in the registry's order; it leaves the encoder
    unfitted.  With a column that has no declared values it raises the
    [KeyError] of the first such column. *)
Theorem categorical_encoder_init `{DataModule} one_hot force_dense_array :
  let names := get_binary_column_names ++ get_categorical_column_names in
  (Forall (λ n, is_Some (get_categorical_variables_values_mapping !! n)) names →
   ∃ self,
     CategoricalEncoder.__init__ one_hot force_dense_array = inr self
     ∧ CategoricalEncoder.categorical_column_names self = names
     ∧ Forall2 (λ n cats, get_categorical_variables_values_mapping !! n = Some cats)
         names (CategoricalEncoder.categories self)
     ∧ CategoricalEncoder.one_hot self = one_hot
     ∧ CategoricalEncoder._column_transformer self = None)
  ∧ (∀ pre n post,
       names = pre ++ n :: post →
       Forall (λ n, is_Some (get_categorical_variables_values_mapping !! n)) pre →
       get_categorical_variables_values_mapping !! n = None →
       CategoricalEncoder.__init__ one_hot force_dense_array
       = inl (KeyError (PStr n))).
Proof.
  intros names. unfold CategoricalEncoder.__init__. fold names. split.
  - intros Hall.
    destruct (traverse_ok
                (λ k, match get_categorical_variables_values_mapping !! k with
                      | Some v => mret v
                      | None => raise (KeyError (PStr k))
                      end) names) as [cats Hcats].
    { eapply Forall_impl; [exact Hall|]. intros n [v ->]. by eexists. }
    rewrite Hcats. eexists. split; [done|]. cbn. repeat split.
    apply traverse_Forall2 in Hcats.
    eapply Forall2_impl; [exact Hcats|]. intros n c. cbn.
    by destruct (_ !! n); intros [= <-].
  - intros pre n post -> Hpre Hn.
    rewrite (traverse_first_failure _ _ _ _ (KeyError (PStr n))); [done| |].
    + eapply Forall_impl; [exact Hpre|]. intros k [v ->]. by eexists.
    + by rewrite Hn.
Qed.

Lemma categorical_encoder_init_witness :
  ∃ self,
    CategoricalEncoder.__init__ (H := insurance_data) (PBool true) (PBool false)
    = inr self
    ∧ CategoricalEncoder.categorical_column_names self
      = ["sex"%string; "smoker"%string; "region"%string]
    ∧ Forall2 (λ n cats,
                 get_categorical_variables_values_mapping (DataModule := insurance_data)
                   !! n = Some cats)
        ["sex"%string; "smoker"%string; "region"%string]
        (CategoricalEncoder.categories self)
    ∧ CategoricalEncoder.one_hot self = PBool true
    ∧ CategoricalEncoder._column_transformer self = None.
Proof.
  apply (proj1 (categorical_encoder_init (H := insurance_data)
                  (PBool true) (PBool false))).
  repeat constructor; eexists; vm_compute; reflexivity.
Defined.

(** ** The per-region averages: the keys of the fitted means *)

Lemma regressor_fit_inv self X y reg :
  AverageChargesPerRegionRegressor.fit self X y = inr reg →
  ∃ region,
    column "region" X = Some region ∧ length region = length y
    ∧ reg = {| AverageChargesPerRegionRegressor.means_ :=
                 Some (groupby_mean (zip region y));
               AverageChargesPerRegionRegressor.global_mean_ := Some (mean y) |}.
Proof.
  unfold AverageChargesPerRegionRegressor.fit, getitem.
  destruct (column "region" X) as [region|]; [|done].
  cbn [mbind result_bind mret result_ret]. unfold region_y_frame.
  case_decide; [|done]. intros [= <-]. by exists region.
Qed.

Lemma seen_NaN region : seen NaN region = false.
Proof.
  unfold seen. induction region as [|c region IH]; [done|].
  cbn. rewrite IH. by destruct c.
Qed.

(** X7. Fitted on a frame with a [region] column and on targets given
    row by row with it, the regressor has in [means_] one key for each
    region of the training rows and no other: a region is a key exactly
    when some training row has it, and the missing region (NaN) is never
    a key. *)
Theorem fitted_means_keys self X y region :
  column "region" X = Some region →
  length region = length y →
  ∃ reg means,
    AverageChargesPerRegionRegressor.fit self X y = inr reg
    ∧ AverageChargesPerRegionRegressor.means_ reg = Some means
    ∧ (∀ k, is_Some (means !! k) ↔ seen k region = true)
    ∧ means !! NaN = None.
Proof.
  intros Hcol Hlen.
  exists {| AverageChargesPerRegionRegressor.means_ :=
              Some (groupby_mean (zip region y));
            AverageChargesPerRegionRegressor.global_mean_ := Some (mean y) |},
         (groupby_mean (zip region y)).
  assert (∀ k, is_Some (groupby_mean (zip region y) !! k) ↔ seen k region = true)
    as Hkeys.
  { intros k. rewrite groupby_mean_lookup.
    pose proof (y_of_region_seen region y k Hlen) as Hseen.
    destruct (y_of_region k (zip region y)) as [|y0 ys].
    - rewrite (proj1 Hseen eq_refl). split; [by intros []|done].
    - split; [intros _|by eexists].
      destruct (seen k region) eqn:Hs; [done|].
      discriminate (proj2 Hseen eq_refl). }
  assert (groupby_mean (zip region y) !! NaN = None) as Hnan.
  { apply eq_None_not_Some. rewrite Hkeys. by rewrite seen_NaN. }
  split; [by apply regressor_fit|]. split; [done|]. by split.
Qed.

Lemma fitted_means_keys_witness :
  ∃ reg means,
    AverageChargesPerRegionRegressor.fit
      AverageChargesPerRegionRegressor.new training charges = inr reg
    ∧ AverageChargesPerRegionRegressor.means_ reg = Some means
    ∧ (∀ k, is_Some (means !! k) ↔ seen k regions = true)
    ∧ means !! NaN = None.
Proof.
  apply (fitted_means_keys AverageChargesPerRegionRegressor.new training).
  - reflexivity.
  - reflexivity.
Defined.

(** X9. A fitted regressor predicts on a frame exactly when the frame
    has a [region] column, and raises [KeyError] for ["region"]
    otherwise; the prediction reads nothing but that column, so two
    frames with the same [region] column get the same predictions. *)
Theorem regressor_predict_reads_region_only self X y reg :
  AverageChargesPerRegionRegressor.fit self X y = inr reg →
  (∀ Xq, is_ok (AverageChargesPerRegionRegressor.predict reg Xq)
         ↔ is_Some (column "region" Xq))
  ∧ (∀ Xq, column "region" Xq = None →
           AverageChargesPerRegionRegressor.predict reg Xq
           = inl (KeyError (PStr "region")))
  ∧ (∀ Xq Xq', column "region" Xq' = column "region" Xq →
               AverageChargesPerRegionRegressor.predict reg Xq'
               = AverageChargesPerRegionRegressor.predict reg Xq).
Proof.
  intros Hfit. apply regressor_fit_inv in Hfit as (region & Hcol & Hlen & ->).
  split; [|split].
  - intros Xq. destruct (column "region" Xq) as [regionq|] eqn:Hq.
    + rewrite (regressor_predict region y Xq regionq) by done.
      split; by eexists.
    + unfold AverageChargesPerRegionRegressor.predict, getitem. rewrite Hq.
      split; [by intros []|by intros []].
  - intros Xq Hq.
    unfold AverageChargesPerRegionRegressor.predict, getitem. by rewrite Hq.
  - intros Xq Xq' Hsame.
    unfold AverageChargesPerRegionRegressor.predict, getitem. by rewrite Hsame.
Qed.

Lemma regressor_predict_reads_region_only_witness :
  (∀ Xq, is_ok (AverageChargesPerRegionRegressor.predict fitted_regressor Xq)
         ↔ is_Some (column "region" Xq))
  ∧ (∀ Xq, column "region" Xq = None →
           AverageChargesPerRegionRegressor.predict fitted_regressor Xq
           = inl (KeyError (PStr "region")))
  ∧ (∀ Xq Xq', column "region" Xq' = column "region" Xq →
               AverageChargesPerRegionRegressor.predict fitted_regressor Xq'
               = AverageChargesPerRegionRegressor.predict fitted_regressor Xq).
Proof.
  apply (regressor_predict_reads_region_only
           AverageChargesPerRegionRegressor.new training charges).
  reflexivity.
Defined.

(** ** The extractor: frames and composition *)

Lemma column_setitem_ne X name c n :
  n ≠ name → column n (setitem X name c) = column n X.
Proof.
  intros Hne. induction X as [|[n0 c0] X IH]; cbn.
  - by rewrite decide_False.
  - destruct (decide (n0 = name)) as [->|Hn0]; cbn.
    + by rewrite !decide_False.
    + by rewrite IH.
Qed.

Lemma setitem_present X name c :
  name ∈ columns X → columns (setitem X name c) = columns X.
Proof.
  unfold columns. induction X as [|[n0 c0] X IH]; cbn; intros Hin.
  - by apply elem_of_nil in Hin.
  - destruct (decide (n0 = name)) as [->|Hn0]; cbn; [done|].
    apply elem_of_cons in Hin as [->|Hin]; [done|]. by rewrite IH.
Qed.

Lemma setitem_setitem X name c c' :
  setitem (setitem X name c) name c' = setitem X name c'.
Proof.
  induction X as [|[n0 c0] X IH]; cbn.
  - by rewrite decide_True.
  - destruct (decide (n0 = name)) as [->|Hn0]; cbn.
    + by rewrite decide_True.
    + by rewrite decide_False, IH.
Qed.

Lemma extractor_transform_frame_inv ext X Xt :
  AverageChargesPerRegionExtractor.transform_frame ext X = inr Xt →
  ∃ regionq avg,
    column "region" X = Some regionq
    ∧ traverse (AverageChargesPerRegionExtractor.get_average ext) regionq = inr avg
    ∧ Xt = setitem X new_column avg.
Proof.
  unfold AverageChargesPerRegionExtractor.transform_frame, getitem.
  destruct (column "region" X) as [regionq|]; [|done].
  cbn [mbind result_bind mret result_ret].
  destruct (traverse _ regionq) as [|avg] eqn:Havg; cbn; [done|].
  intros [= <-]. by exists regionq, avg.
Qed.

(** X11. Whatever the extractor holds, fitted or not, and whether
    [transform] returns or raises, every frame that was allocated before
    the call is the same after it: the input is never written to, and a
    result, when there is one, is a frame that did not exist before. *)
Theorem extractor_transform_never_mutates ext (h : heap) x :
  let '(h', r) := AverageChargesPerRegionExtractor.transform ext h x in
  (∀ l, is_Some (h !! l) → h' !! l = h !! l)
  ∧ (∀ x', r = inr x' → h !! x' = None ∧ is_Some (h' !! x')).
Proof.
  unfold AverageChargesPerRegionExtractor.transform.
  destruct (h !! x) as [X|] eqn:Hx; [|by split].
  destruct (alloc h X) as [h1 x1] eqn:Halloc.
  apply alloc_fresh in Halloc as [Hfresh ->].
  destruct (AverageChargesPerRegionExtractor.transform_frame ext X) as [e|Xt].
  - split; [|done]. intros l [Y Hl]. rewrite lookup_insert_ne; [done|].
    intros <-. congruence.
  - split.
    + intros l [Y Hl]. rewrite !lookup_insert_ne; [done|intros <-; congruence..].
    + intros x' [= <-]. split; [done|]. rewrite lookup_insert_eq. by eexists.
Qed.

(** X12. For an input with a [region] column, the fitted extractor
    returns a frame in which every column but [AverageChargeInRegion] is
    the input's, that column has one value per row, and the column names
    are the input's, with [AverageChargeInRegion] added at the end when
    the input had no such column. *)
Theorem extractor_transform_frame_effect self X0 y ext X regionq :
  AverageChargesPerRegionExtractor.fit self X0 y = inr ext →
  column "region" X = Some regionq →
  ∃ Xt avg,
    AverageChargesPerRegionExtractor.transform_frame ext X = inr Xt
    ∧ column new_column Xt = Some avg
    ∧ length avg = length regionq
    ∧ (∀ n, n ≠ new_column → column n Xt = column n X)
    ∧ columns Xt = (if decide (new_column ∈ columns X) then columns X
                    else columns X ++ [new_column]).
Proof.
  intros Hfit Hregion.
  unfold AverageChargesPerRegionExtractor.fit in Hfit.
  destruct (getitem X0 "region") as [e|region] eqn:HX0; [done|].
  cbn in Hfit. unfold region_y_frame in Hfit.
  destruct (decide (length region = length y)) as [Hlen|]; [|done].
  injection Hfit as <-.
  eexists _, (region_average region y <$> regionq).
  split; [by apply extractor_transform_frame|].
  split; [apply column_setitem|]. split; [by rewrite length_fmap|].
  split; [intros n Hn; by apply column_setitem_ne|].
  case_decide as Hin.
  - by apply setitem_present.
  - rewrite setitem_fresh by done. unfold columns. by rewrite fmap_app.
Qed.

Lemma extractor_transform_frame_effect_witness :
  ∃ Xt avg,
    AverageChargesPerRegionExtractor.transform_frame fitted_extractor already_widened
    = inr Xt
    ∧ column new_column Xt = Some avg
    ∧ length avg = length [Str "A"]
    ∧ (∀ n, n ≠ new_column → column n Xt = column n already_widened)
    ∧ columns Xt = (if decide (new_column ∈ columns already_widened)
                    then columns already_widened
                    else columns already_widened ++ [new_column]).
Proof.
  apply (extractor_transform_frame_effect
           AverageChargesPerRegionExtractor.new training charges).
  - reflexivity.
  - reflexivity.
Defined.

Lemma extractor_transform_never_mutates_witness :
  let '(h', r) :=
    AverageChargesPerRegionExtractor.transform fitted_extractor
      {[ 0 := already_widened ]} 0 in
  (∀ l, is_Some (({[ 0 := already_widened ]} : gmap nat frame) !! l) →
        h' !! l = ({[ 0 := already_widened ]} : gmap nat frame) !! l)
  ∧ (∀ x', r = inr x' →
           ({[ 0 := already_widened ]} : gmap nat frame) !! x' = None
           ∧ is_Some (h' !! x')).
Proof.
  exact (extractor_transform_never_mutates fitted_extractor
           {[ 0 := already_widened ]} 0).
Defined.

(** X13. Transforming twice is transforming once: on the frame it
    returned, the extractor returns that same frame, since the averages
    are computed from the [region] column, which it leaves as it is, and
    written over the column of the first pass. *)
Theorem extractor_transform_idempotent ext X Xt :
  AverageChargesPerRegionExtractor.transform_frame ext X = inr Xt →
  AverageChargesPerRegionExtractor.transform_frame ext Xt = inr Xt.
Proof.
  intros Htr.
  apply extractor_transform_frame_inv in Htr as (regionq & avg & Hcol & Havg & ->).
  unfold AverageChargesPerRegionExtractor.transform_frame, getitem.
  rewrite column_setitem_ne by done. rewrite Hcol.
  cbn [mbind result_bind mret result_ret]. rewrite Havg.
  cbn [mbind result_bind mret result_ret].
  fold new_column. by rewrite setitem_setitem.
Qed.

Lemma extractor_transform_idempotent_witness :
  AverageChargesPerRegionExtractor.transform_frame fitted_extractor
    [("region"%string, [Str "A"]); (new_column, [Num (Q2Qc 15)])]
  = inr [("region"%string, [Str "A"]); (new_column, [Num (Q2Qc 15)])].
Proof.
  apply (extractor_transform_idempotent fitted_extractor already_widened).
  unfold fitted_extractor.
  rewrite (extractor_transform_frame regions charges _ [Str "A"]) by reflexivity.
  cbn [fmap list_fmap]. rewrite example_average_A. reflexivity.
Defined.

Lemma encoder_transform_reads_its_columns self X0 y self' X X' :
  CategoricalEncoder.fit self X0 y = inr self' →
  (∀ n, n ∈ CategoricalEncoder.categorical_column_names self →
        column n X' = column n X) →
  CategoricalEncoder.transform self' X' = CategoricalEncoder.transform self' X.
Proof.
  intros Hfit Hsame. rewrite !(encoder_transform_unfold _ _ _ _ _ Hfit).
  by rewrite (safe_indexing_ext _ X X').
Qed.

(** X14. The column the extractor adds does not change what the
    categorical encoder returns: when [AverageChargeInRegion] is not one
    of the encoder's columns, encoding the extractor's output is encoding
    its input, with the same result or the same exception. *)
Theorem encoder_after_extractor self X0 y self' ext X Xt :
  CategoricalEncoder.fit self X0 y = inr self' →
  new_column ∉ CategoricalEncoder.categorical_column_names self →
  AverageChargesPerRegionExtractor.transform_frame ext X = inr Xt →
  CategoricalEncoder.transform self' Xt = CategoricalEncoder.transform self' X.
Proof.
  intros Hfit Hnew Htr.
  apply extractor_transform_frame_inv in Htr as (regionq & avg & _ & _ & ->).
  apply (encoder_transform_reads_its_columns _ _ _ _ _ _ Hfit).
  intros n Hn. apply column_setitem_ne. by intros ->.
Qed.

Lemma encoder_after_extractor_witness :
  CategoricalEncoder.transform fitted_insurance_encoder
    (insurance_rows
       ++ [(new_column, [Num (Q2Qc (80 # 3)); Num (Q2Qc (80 # 3))])])
  = CategoricalEncoder.transform fitted_insurance_encoder insurance_rows.
Proof.
  apply (encoder_after_extractor insurance_encoder insurance_rows None
           fitted_insurance_encoder fitted_extractor).
  - reflexivity.
  - apply (bool_decide_unpack
             (new_column
              ∉ CategoricalEncoder.categorical_column_names insurance_encoder)).
    vm_compute. reflexivity.
  - unfold fitted_extractor.
    rewrite (extractor_transform_frame regions charges _
               [Str "southwest"; Str "northeast"]) by reflexivity.
    cbn [fmap list_fmap].
    rewrite !example_average_unseen by discriminate. reflexivity.
Defined.

(** ** The discretizer: what [fit] records *)

Lemma discretizer_fit_fields `{KBinsEdges} self X y d its :
  Discretizer.bins_per_column self = PDict its →
  Discretizer.fit self X y = inr d →
  its ≠ []
  ∧ Discretizer.bins_per_column d = PDict its
  ∧ Discretizer.strategy d = Discretizer.strategy self
  ∧ Discretizer.n_features_in_ d = Some (n_columns X)
  ∧ Discretizer.original_column_order_ d = Some (columns X)
  ∧ Discretizer.columns_ d = Some its.*1
  ∧ Discretizer.new_column_order_ d
    = Some (its.*1 ++ filter (λ n, n ∉ its.*1) (columns X)).
Proof.
  intros Hbins. unfold Discretizer.fit. rewrite Hbins.
  cbn [Discretizer.items mbind result_bind mret result_ret].
  destruct its as [|it its]; [done|].
  cbn [Discretizer.unzip_pairs mbind result_bind mret result_ret].
  destruct (sklearn.fit _ _ _ X) as [|ct]; cbn [mbind result_bind]; [done|].
  intros [= <-]. by repeat split.
Qed.

Lemma reorder_Permutation (cols original : list string) :
  NoDup cols → NoDup original → (∀ n, n ∈ cols → n ∈ original) →
  cols ++ filter (λ n, n ∉ cols) original ≡ₚ original.
Proof.
  intros Hcols Horig Hsub. apply NoDup_Permutation; [|done|].
  - apply NoDup_app. split; [done|]. split.
    + intros n Hn Hn'. by apply list_elem_of_filter in Hn' as [? _].
    + by apply NoDup_filter.
  - intros n. rewrite elem_of_app, list_elem_of_filter. split.
    + intros [?|[_ ?]]; auto.
    + intros Hn. destruct (decide (n ∈ cols)); auto.
Qed.

Lemma filter_all {A} (P : A → Prop) `{∀ x, Decision (P x)} (l : list A) :
  Forall P l → filter P l = l.
Proof.
  induction 1 as [|x l Hx _ IH]; [done|].
  by rewrite filter_cons_True, IH.
Qed.

Lemma filter_none {A} (P : A → Prop) `{∀ x, Decision (P x)} (l : list A) :
  Forall (λ x, ¬ P x) l → filter P l = [].
Proof.
  induction 1 as [|x l Hx _ IH]; [done|].
  by rewrite filter_cons_False.
Qed.

Lemma filter_leading (cols rest : list string) :
  NoDup (cols ++ rest) → filter (λ n, n ∉ cols) (cols ++ rest) = rest.
Proof.
  intros Hnodup. apply NoDup_app in Hnodup as (_ & Hdisj & _).
  rewrite filter_app, filter_none, filter_all; [done| |].
  - apply Forall_forall. intros n Hn Hn'. by eapply Hdisj.
  - apply Forall_forall. intros n Hn Hn'. by apply Hn'.
Qed.

(** X16. [fit] records the number of columns and the column names of the
    frame, and the configured columns.  When the configured columns and
    the columns of the frame are distinct, the new column order is a
    rearrangement of the frame's columns, none lost and none repeated;
    when the configured columns already lead the frame, in the configured
    order, it is the frame's own order. *)
Theorem discretizer_fit_reorders_columns `{KBinsEdges} self X y d its :
  Discretizer.bins_per_column self = PDict its →
  Discretizer.fit self X y = inr d →
  NoDup its.*1 →
  NoDup (columns X) →
  ∃ order,
    Discretizer.new_column_order_ d = Some order
    ∧ Discretizer.original_column_order_ d = Some (columns X)
    ∧ Discretizer.n_features_in_ d = Some (length (columns X))
    ∧ Discretizer.columns_ d = Some its.*1
    ∧ order ≡ₚ columns X
    ∧ (∀ rest, columns X = its.*1 ++ rest → order = columns X).
Proof.
  intros Hbins Hfit Hcols Horig.
  destruct (discretizer_fit_fields _ _ _ _ _ Hbins Hfit)
    as (Hne & _ & _ & Hn & Ho & Hc & Hnew).
  destruct (discretizer_fit_inv _ _ _ _ _ Hbins Hfit)
    as (s & ns & sel0 & xss & _ & Hsel0 & _).
  eexists. split; [done|]. split; [done|].
  split; [by rewrite Hn; unfold n_columns, columns; rewrite length_fmap|].
  split; [done|]. split.
  - apply reorder_Permutation; [done..|]. by eapply select_elem_of.
  - intros rest Hrest. rewrite Hrest in *. by rewrite filter_leading.
Qed.

Lemma discretizer_fit_reorders_columns_witness :
  ∃ order,
    Discretizer.new_column_order_ fitted_age_discretizer = Some order
    ∧ Discretizer.original_column_order_ fitted_age_discretizer
      = Some (columns age_bmi)
    ∧ Discretizer.n_features_in_ fitted_age_discretizer
      = Some (length (columns age_bmi))
    ∧ Discretizer.columns_ fitted_age_discretizer = Some age_bins.*1
    ∧ order ≡ₚ columns age_bmi
    ∧ (∀ rest, columns age_bmi = age_bins.*1 ++ rest → order = columns age_bmi).
Proof.
  apply (discretizer_fit_reorders_columns (H := equal_width_edges)
           age_discretizer age_bmi charges).
  - reflexivity.
  - reflexivity.
  - apply (bool_decide_unpack (NoDup age_bins.*1)). vm_compute. reflexivity.
  - apply (bool_decide_unpack (NoDup (columns age_bmi))). vm_compute. reflexivity.
Defined.

(** ** The discretizer: the frame [transform] returns *)

Lemma kbins_transform_columns_length `{KBinsEdges} es cols out :
  sklearn.kbins_transform_columns es cols = inr out →
  length out = length cols.
Proof.
  revert cols out. induction es as [|e es IH]; intros [|col cols] out; cbn;
    try done.
  - by intros [= <-].
  - destruct (sklearn.numeric_column col); cbn; [done|].
    destruct (sklearn.kbins_transform_columns es cols) as [|out'] eqn:Hrec;
      cbn; [done|].
    intros [= <-]. cbn. f_equal. by eapply IH.
Qed.

Lemma column_app_r (X1 X2 : frame) n :
  n ∉ columns X1 → column n (X1 ++ X2) = column n X2.
Proof.
  unfold columns. induction X1 as [|[n0 c0] X1 IH]; cbn; [done|].
  rewrite not_elem_of_cons. intros [Hne Hn]. rewrite decide_False by done.
  by apply IH.
Qed.

Lemma column_zip names (cols : list (list cell)) j n col :
  NoDup names → length names = length cols →
  names !! j = Some n → cols !! j = Some col →
  column n (zip names cols) = Some col.
Proof.
  intros Hnodup Hlen Hn Hcol. apply column_of_elem.
  - by rewrite columns_zip.
  - apply list_elem_of_lookup. exists j.
    apply lookup_zip_with_Some. by exists n, col.
Qed.

(** X17. Whatever frame it is given, a frame a fitted discretizer returns
    has the column names fixed by [fit], in the new column order; and,
    the names being distinct, each column that is not configured holds
    the values the input has under that name. *)
Theorem discretizer_transform_schema `{KBinsEdges} self X0 y d its X out :
  Discretizer.bins_per_column self = PDict its →
  Discretizer.fit self X0 y = inr d →
  Discretizer.transform d X = inr out →
  Discretizer.new_column_order_ d = Some (columns out)
  ∧ (NoDup its.*1 → NoDup (columns X0) →
     ∀ n, n ∈ columns X0 → n ∉ its.*1 → column n out = column n X).
Proof.
  intros Hbins Hfit Htr.
  destruct (discretizer_fit_inv _ _ _ _ _ Hbins Hfit)
    as (s & ns & sel0 & xss & Hns & Hsel0 & Hxss & Hct & Horder).
  unfold Discretizer.transform in Htr. rewrite Hct, Horder in Htr.
  unfold sklearn.transform in Htr.
  cbn [sklearn.encoder_ sklearn.encoder_columns sklearn.remainder_columns] in Htr.
  destruct (sklearn.select (filter _ _) X) as [|rest] eqn:Hrest;
    cbn [mbind result_bind] in Htr; [done|].
  destruct (sklearn.safe_indexing its.*1 X) as [|sel] eqn:Hsel;
    cbn [mbind result_bind] in Htr; [done|].
  cbn [sklearn.transform_transformer] in Htr.
  destruct (sklearn.kbins_transform_columns _ sel) as [|enc] eqn:Henc;
    cbn [mbind result_bind mret result_ret] in Htr; [done|].
  apply kbins_transform_columns_length in Henc.
  apply safe_indexing_select in Hsel.
  apply select_Forall2 in Hsel, Hrest.
  pose proof (Forall2_length _ _ _ Hsel) as Hlen_sel.
  pose proof (Forall2_length _ _ _ Hrest) as Hlen_rest.
  unfold Discretizer.DataFrame in Htr. case_decide as Hlen; [|done].
  injection Htr as <-.
  set (rem := filter (λ n, n ∉ its.*1) (columns X0)) in *.
  split.
  - rewrite Horder. f_equal. symmetry. apply columns_zip.
    rewrite !length_app in *. lia.
  - intros Hcols Horig n Hn Hnot.
    rewrite zip_app by lia.
    rewrite column_app_r by (rewrite columns_zip by lia; done).
    assert (n ∈ rem) as Hrem by (by apply list_elem_of_filter).
    apply list_elem_of_lookup in Hrem as [j Hj].
    destruct (Forall2_lookup_l _ _ _ _ _ Hrest Hj) as (col & Hcol & Hcolumn).
    rewrite Hcolumn. apply (column_zip rem rest j); [|done..].
    by apply NoDup_filter.
Qed.

Lemma discretizer_transform_schema_witness :
  Discretizer.new_column_order_ fitted_age_discretizer
  = Some (columns [("age"%string, [sklearn.code 0; sklearn.code 1; sklearn.code 2]);
                   ("bmi"%string,
                    [Num (Q2Qc (279 # 10)); Num (Q2Qc (227 # 10)); Num (Q2Qc 30)])])
  ∧ (NoDup age_bins.*1 → NoDup (columns age_bmi) →
     ∀ n, n ∈ columns age_bmi → n ∉ age_bins.*1 →
          column n [("age"%string, [sklearn.code 0; sklearn.code 1; sklearn.code 2]);
                    ("bmi"%string,
                     [Num (Q2Qc (279 # 10)); Num (Q2Qc (227 # 10)); Num (Q2Qc 30)])]
          = column n age_bmi).
Proof.
  apply (discretizer_transform_schema (H := equal_width_edges)
           age_discretizer age_bmi charges fitted_age_discretizer age_bins).
  - reflexivity.
  - reflexivity.
  - vm_compute. reflexivity.
Defined.

(** ** The state of a new pipeline *)

Lemma call_unfitted `{DataModule} `{SklearnSignatures} `{Bagging} cls kwargs inst :
  call cls kwargs = inr inst → unfitted inst.
Proof.
  destruct cls; cbn; repeat case_match; cbn; try done;
    try (by intros [= <-]).
  unfold CategoricalEncoder.__init__.
  destruct (traverse _ _); cbn; [done|]. by intros [= <-].
Qed.

(** X20. [build_estimator] constructs and does not fit: in a pipeline it
    returns, no step of the classes of [model.py] has any of the
    attributes that [fit] assigns. *)
Theorem build_estimator_steps_unfitted `{DataModule} `{SklearnSignatures} `{Bagging}
    config p :
  build_estimator config = inr p →
  length (steps p) = length config
  ∧ Forall (λ st, unfitted st.2) (steps p).
Proof.
  unfold build_estimator.
  destruct (traverse build_step config) as [|sts] eqn:Htr; cbn; [done|].
  intros [= <-]. cbn. apply traverse_Forall2 in Htr.
  split; [symmetry; by eapply Forall2_length|].
  induction Htr as [|step st config sts Hst _ IH]; constructor; [|done].
  unfold build_step in Hst.
  destruct (dict_getitem step (PStr "name")) as [|name];
    cbn [mbind result_bind] in Hst; [done|].
  destruct (dict_getitem step (PStr "params")) as [|params];
    cbn [mbind result_bind] in Hst; [done|].
  destruct (dict_getitem get_estimator_mapping name) as [|cls];
    cbn [mbind result_bind] in Hst; [done|].
  destruct (unpack_kwargs params) as [|kwargs]; cbn [mbind result_bind] in Hst;
    [done|].
  destruct (call cls kwargs) as [|inst] eqn:Hcall;
    cbn [mbind result_bind mret result_ret] in Hst; [done|].
  injection Hst as <-. by eapply call_unfitted.
Qed.

Lemma build_estimator_steps_unfitted_witness :
  ∃ p,
    build_estimator (H := insurance_data) (H0 := no_keywords)
      (H1 := counter_bagging)
      [entry "categorical-encoder" [("one_hot"%string, PBool true)];
       entry "bagging" []] = inr p
    ∧ length (steps p) = 2
    ∧ Forall (λ st, unfitted (H := counter_bagging) st.2) (steps p).
Proof.
  destruct (build_estimator (H := insurance_data) (H0 := no_keywords)
              (H1 := counter_bagging)
              [entry "categorical-encoder" [("one_hot"%string, PBool true)];
               entry "bagging" []]) as [e|p] eqn:Hp.
  - vm_compute in Hp. discriminate Hp.
  - exists p. split; [reflexivity|].
    exact (build_estimator_steps_unfitted (H := insurance_data)
             (H0 := no_keywords) (H1 := counter_bagging) _ p Hp).
Defined.
